(** * The cemuhookudp client of src/input_common/udp/client.cpp

    A shallow embedding of the client facade ([Client::OnVersion],
    [Client::OnPortInfo], [Client::OnPadData]) and of the network engine
    ([Socket::StartSend], [Socket::StartReceive], [Socket::HandleReceive],
    [Socket::HandleSend], [SocketLoop]), followed by the properties of the
    specification that are stated about them.

    Conventions.
    - [u8], [u16], [u32] values are integers of [Z]; the only narrowing the
      source performs, [static_cast<u16>], is written out as a remainder.
    - C++ [float] is IEEE 754 binary32: [spec_float] of the standard library
      at precision 24 and maximal exponent 128, with its correctly rounded
      division.
    - Logging, the mutex and the stores into the shared status are recorded,
      in program order, in a journal of effects returned by every callback. *)

From Stdlib Require Import String ZArith Zpower List Bool Lia.
From Stdlib Require Import Floats.SpecFloat.
Import ListNotations.
Local Open Scope Z_scope.

(** ** Machine integers *)

Definition u16_modulus : Z := 65536.
Definition u32_modulus : Z := 4294967296.

Definition is_u8 (z : Z) : Prop := 0 <= z < 256.
Definition is_u16 (z : Z) : Prop := 0 <= z < u16_modulus.
Definition is_u32 (z : Z) : Prop := 0 <= z < u32_modulus.

(** [static_cast<u16>(z)] *)
Definition to_u16 (z : Z) : Z := z mod u16_modulus.

(** [std::clamp(v, lo, hi)] for [lo <= hi]: [v] brought into [lo..hi].
    The call is undefined when [hi < lo] (implementations differ there, or
    abort on an assertion): what this function returns in that case is the
    value of [(v < lo) ? lo : (hi < v) ? hi : v] and carries no meaning, and
    every property of the stored coordinates below assumes [lo <= hi]. *)
Definition clamp (v lo hi : Z) : Z :=
  if v <? lo then lo else if hi <? v then hi else v.

(** ** Single precision floats *)

Module F32.

Definition prec : Z := 24.
Definition emax : Z := 128.

Definition f32 : Type := spec_float.

(** The literal [0] stored into a [float]. *)
Definition zero : f32 := S754_zero false.

(** Conversion of an [int] to [float] (round to nearest even; exact below
    2^24 in magnitude). *)
Definition of_int (z : Z) : f32 := binary_normalize prec emax z 0 false.

Definition one : f32 := of_int 1.
Definition nan : f32 := S754_nan.

(** Unary minus. *)
Definition neg (a : f32) : f32 := SFopp a.

(** [a / b] on floats. *)
Definition div (a b : f32) : f32 := SFdiv prec emax a b.

(** [a <= b] on floats; false as soon as one side is a NaN. *)
Definition leb (a b : f32) : bool := SFleb a b.
Definition eqb (a b : f32) : bool := SFeqb a b.

(** [0 <= a && a <= 1] *)
Definition in_unit (a : f32) : bool := leb zero a && leb a one.

(** The second half of [binary_round_aux]: the rounded mantissa is
    brought back to 24 digits. *)
Definition finish (s : bool) (m : Z) (e : Z) : spec_float :=
  let '(mrs, e2) := shr_fexp prec emax m e loc_Exact in
  match shr_m mrs with
  | Z0 => S754_zero s
  | Zpos m => if e2 <=? emax - prec then S754_finite s m e2 else S754_infinity s
  | Zneg _ => S754_nan
  end.

(** The mantissa of the powers of two. *)
Definition two23 : positive := 8388608.

(** [x] is a normal float [m * 2^e], [m] of 24 digits, within half a unit
    of its last digit of the exact quotient [n / d] (for [0 <= n],
    [0 < d]): [|n / d - m * 2^e| <= 2^e / 2], or [x] is [+0] and [n = 0]. *)
Definition nearest_quotient (n d : Z) (x : f32) : Prop :=
  match x with
  | S754_zero false => n = 0
  | S754_finite false m e =>
      Zpos (digits2_pos m) = 24 /\ e <= 0 /\
      2 * Z.abs (n * 2 ^ (- e) - Zpos m * d) <= d
  | _ => False
  end.

End F32.

Definition f32 : Type := F32.f32.

(** ** Vectors of common/vector_math.h *)

(** Modelled from the spec: common/vector_math.h is not part of the
    sources; [Math::Vec3f] is a triple of floats built by [Math::MakeVec]. *)
Record Vec3f : Type := MakeVec { vx : f32; vy : f32; vz : f32 }.

(** ** Wire structures read by the client

    protocol.h is not part of the sources.  The records keep the members
    that client.cpp reads, with the types the specification gives them. *)

Module Response.

(** Modelled from the spec: Version{version:u16}. *)
Record Version : Type := { version : Z (* u16 *) }.

(** Modelled from the spec: PortInfo{model, connection/battery state}; only
    [model] is read. *)
Record PortInfo : Type := { model : Z (* u8 *) }.

(** Modelled from the spec: touch point 1, (x:u16, y:u16, is_active); the
    source compares [is_active] with 0. *)
Module TouchPad.
Record t : Type := { is_active : Z (* u8 *); x : Z (* u16 *); y : Z (* u16 *) }.
End TouchPad.

(** Modelled from the spec: accelerometer (x,y,z):f32. *)
Module Accel.
Record t : Type := { x : f32; y : f32; z : f32 }.
End Accel.

(** Modelled from the spec: gyroscope (pitch,yaw,roll):f32. *)
Module Gyro.
Record t : Type := { pitch : f32; yaw : f32; roll : f32 }.
End Gyro.

(** Modelled from the spec: PadData{packet_counter:u32, accelerometer,
    gyroscope, touch point 1}. *)
Record PadData : Type := {
  packet_counter : Z (* u32 *);
  touch_1 : TouchPad.t;
  accel : Accel.t;
  gyro : Gyro.t
}.

(** The members hold values of their C++ types. *)
Definition wf_PadData (d : PadData) : Prop :=
  is_u32 (packet_counter d) /\
  is_u8 (TouchPad.is_active (touch_1 d)) /\
  is_u16 (TouchPad.x (touch_1 d)) /\
  is_u16 (TouchPad.y (touch_1 d)).

End Response.

(** ** The shared status *)

(** Modelled from the spec: client.h is not part of the sources;
    TouchCalibration is {min_x, max_x, min_y, max_y : u16}. *)
Record CalibrationData : Type := {
  min_x : Z; (* u16 *)
  min_y : Z; (* u16 *)
  max_x : Z; (* u16 *)
  max_y : Z  (* u16 *)
}.

Definition wf_CalibrationData (c : CalibrationData) : Prop :=
  is_u16 (min_x c) /\ is_u16 (min_y c) /\ is_u16 (max_x c) /\ is_u16 (max_y c).

Definition MotionStatus : Type := (Vec3f * Vec3f)%type.
Definition TouchStatus : Type := (f32 * f32 * bool)%type.

(** Modelled from the spec: client.h is not part of the sources;
    DeviceStatus is {motion: (accel, gyro), touch: (x, y, is_active)} with
    the optional calibration, behind one mutex. *)
Record DeviceStatus : Type := {
  motion_status : MotionStatus;
  touch_status : TouchStatus;
  touch_calibration : option CalibrationData
}.

Definition set_motion_status (m : MotionStatus) (s : DeviceStatus) : DeviceStatus :=
  {| motion_status := m;
     touch_status := touch_status s;
     touch_calibration := touch_calibration s |}.

Definition set_touch_status (t : TouchStatus) (s : DeviceStatus) : DeviceStatus :=
  {| motion_status := motion_status s;
     touch_status := t;
     touch_calibration := touch_calibration s |}.

(** ** Effects of the callbacks, in program order *)

Inductive LogLine : Type :=
| Info_Starting (host : string) (port : Z)
| Trace_Version (version : Z)
| Trace_PortInfo (model : Z)
| Trace_PadData
| Warning_StalePadData (current_count packet_count : Z).

Inductive Effect : Type :=
| Log (l : LogLine)
| Lock
| StoreMotion (m : MotionStatus)
| StoreTouch (t : TouchStatus)
| Unlock.

Definition is_store (e : Effect) : bool :=
  match e with
  | StoreMotion _ | StoreTouch _ => true
  | _ => false
  end.

(** ** The client facade *)

(** The members of [Client] that the callbacks use; [status] stands for the
    object behind the shared pointer, which this thread alone writes. *)
Record Client : Type := {
  packet_sequence : Z; (* u32 *)
  status : DeviceStatus
}.

Definition OnVersion (data : Response.Version) (c : Client) : Client * list Effect :=
  (c, [Log (Trace_Version (Response.version data))]).

Definition OnPortInfo (data : Response.PortInfo) (c : Client) : Client * list Effect :=
  (c, [Log (Trace_PortInfo (Response.model data))]).

(** The two vectors built before the lock is taken. *)
Definition remap_accel (a : Response.Accel.t) : Vec3f :=
  MakeVec (F32.neg (Response.Accel.x a)) (Response.Accel.y a) (F32.neg (Response.Accel.z a)).

Definition remap_gyro (g : Response.Gyro.t) : Vec3f :=
  MakeVec (F32.neg (Response.Gyro.pitch g)) (F32.neg (Response.Gyro.yaw g)) (Response.Gyro.roll g).

(** [(std::clamp(static_cast<u16>(v), lo, hi) - lo) / static_cast<float>(hi - lo)]:
    the operands of both subtractions are promoted to [int], so neither
    wraps; the numerator is converted to [float] for the division. *)
Definition normalize (v lo hi : Z) : f32 :=
  F32.div (F32.of_int (clamp (to_u16 v) lo hi - lo)) (F32.of_int (hi - lo)).

Definition touch_of (cal : option CalibrationData) (t : Response.TouchPad.t) : TouchStatus :=
  let is_active := negb (Response.TouchPad.is_active t =? 0) in
  let x := F32.zero in
  let y := F32.zero in
  let '(x, y) :=
    match is_active, cal with
    | true, Some c =>
        (normalize (Response.TouchPad.x t) (min_x c) (max_x c),
         normalize (Response.TouchPad.y t) (min_y c) (max_y c))
    | _, _ => (x, y)
    end in
  (x, y, is_active).

Definition OnPadData (data : Response.PadData) (c : Client) : Client * list Effect :=
  if Response.packet_counter data <=? packet_sequence c then
    (c, [Log Trace_PadData;
         Log (Warning_StalePadData (packet_sequence c) (Response.packet_counter data))])
  else
    let accel := remap_accel (Response.accel data) in
    let gyro := remap_gyro (Response.gyro data) in
    let touch := touch_of (touch_calibration (status c)) (Response.touch_1 data) in
    ({| packet_sequence := Response.packet_counter data;
        status := set_touch_status touch (set_motion_status (accel, gyro) (status c)) |},
     [Log Trace_PadData; Lock; StoreMotion (accel, gyro); StoreTouch touch; Unlock]).

(** The callbacks handed to the socket by the constructor of [Client]. *)
Record SocketCallback : Type := {
  version : Response.Version -> Client -> Client * list Effect;
  port_info : Response.PortInfo -> Client -> Client * list Effect;
  pad_data : Response.PadData -> Client -> Client * list Effect
}.

Definition Client_callback : SocketCallback :=
  {| version := OnVersion; port_info := OnPortInfo; pad_data := OnPadData |}.

(** Packets delivered one after the other to [OnPadData]. *)
Fixpoint feed (ds : list Response.PadData) (c : Client) : Client * list Effect :=
  match ds with
  | [] => (c, [])
  | d :: ds' =>
      let '(c1, j1) := OnPadData d c in
      let '(c2, j2) := feed ds' c1 in
      (c2, j1 ++ j2)
  end.

(** ** Protocol interface used by the engine *)

Definition bytes : Type := list Byte.byte.

(** Modelled from the spec: the enumeration [Type] of protocol.h is not part
    of the sources; the type tag selects one of Version, PortInfo and PadData.
    [Other] stands for any further value of the underlying integer, for which
    the [switch] of [HandleReceive] has no case. *)
Module Type_.
Inductive t : Type := Version | PortInfo | PadData | Other (tag : Z).
End Type_.

(** Modelled from the spec: the request payloads of protocol.h are not part
    of the sources; the members are the ones the brace initialisers of
    [HandleSend] fill, and [EMPTY_MAC_ADDRESS] is the all-zero placeholder. *)
Module Request.
Record PortInfo : Type := { pad_count : Z; port : list Z }.
Inductive Flags : Type := AllPorts | Id | Mac.
Record PadData : Type := { flags : Flags; port_id : Z; mac : list Z }.
Definition EMPTY_MAC_ADDRESS : list Z := [0; 0; 0; 0; 0; 0].
End Request.

(** ** Boost.Asio as seen by the engine *)

Inductive error_code : Type :=
| success
| operation_aborted
| system_error (value : Z).

(** A time point of [Socket::clock], in ticks of its duration.  Arithmetic on
    time points is assumed not to leave the range of the representation. *)
Definition time_point : Type := Z.

Definition endpoint : Type := (string * Z)%type.

(** What the operating system answers to one synchronous [send_to]. *)
Inductive send_result : Type :=
| SendOk (len : Z)
| SendFail (ec : error_code).

(** One call of [socket.send_to(buffer, destination)]. *)
Record SendCall : Type := {
  sent_data : bytes;
  sent_to : endpoint;
  sent_result : send_result
}.

Record Socket : Type := {
  callback : SocketCallback;
  client_id : Z; (* u32 *)
  send_endpoint : endpoint;
  send_buffer1 : bytes;
  send_buffer2 : bytes;
  receive_buffer : bytes;
  timer_expiry : time_point;  (* timer.expiry() *)
  timer_waits : nat;          (* handlers waiting on the timer *)
  timer_cancelled : nat;      (* waits cancelled by a later expires_at *)
  receive_waits : nat;        (* outstanding async_receive_from *)
  wire : list SendCall        (* every send_to issued, oldest first *)
}.

(** The engine together with what its callbacks close over. *)
Record World : Type := {
  socket : Socket;
  client : Client;
  journal : list Effect
}.

(** Outcome of a handler: it returns, or an exception leaves it. *)
Inductive Completion (A : Type) : Type :=
| Normal (a : A)
| Raised (e : error_code).
Arguments Normal {A} a.
Arguments Raised {A} e.

Definition M (A : Type) : Type := World -> Completion A * World.

Definition ret {A} (a : A) : M A := fun w => (Normal a, w).

Definition bind {A B} (m : M A) (k : A -> M B) : M B :=
  fun w =>
    match m w with
    | (Normal a, w') => k a w'
    | (Raised e, w') => (Raised e, w')
    end.

Definition raise {A} (e : error_code) : M A := fun w => (Raised e, w).

Definition get_socket : M Socket := fun w => (Normal (socket w), w).

Definition modify_socket (f : Socket -> Socket) : M unit :=
  fun w => (Normal tt, {| socket := f (socket w); client := client w; journal := journal w |}).

Declare Scope engine_scope.
Delimit Scope engine_scope with engine.
Notation "x <- c ;; k" := (bind c (fun x => k))
  (at level 61, c at next level, right associativity) : engine_scope.
Notation "c ;;; k" := (bind c (fun _ => k))
  (at level 61, right associativity) : engine_scope.

(** ** The network engine (class [Socket]) *)

Section Engine.

(** protocol.h and protocol.cpp are consumed as black boxes. *)
  Variable MAX_PACKET_SIZE : nat.
  Variable Validate : bytes -> Z -> option Type_.t.           (* Response::Validate *)
  Variable decode_Version : bytes -> Response.Version.        (* memcpy past the header *)
  Variable decode_PortInfo : bytes -> Response.PortInfo.
  Variable decode_PadData : bytes -> Response.PadData.
  Variable Create_PortInfo : Request.PortInfo -> Z -> bytes.  (* Request::Create *)
  Variable Create_PadData : Request.PadData -> Z -> bytes.
  Variable ticks_per_second : Z.                              (* clock::period *)

  Local Open Scope engine_scope.

(** [std::chrono::seconds(n)] converted to the duration of the clock. *)
Definition seconds (n : Z) : Z := n * ticks_per_second.

(** [timer.expires_at(t)]: sets the expiry; waits still pending on the
    timer are cancelled. *)
Definition expires_at (t : time_point) (s : Socket) : Socket :=
  {| callback := callback s; client_id := client_id s;
     send_endpoint := send_endpoint s;
     send_buffer1 := send_buffer1 s; send_buffer2 := send_buffer2 s;
     receive_buffer := receive_buffer s;
     timer_expiry := t;
     timer_waits := 0;
     timer_cancelled := (timer_cancelled s + timer_waits s)%nat;
     receive_waits := receive_waits s;
     wire := wire s |}.

(** [timer.async_wait(handler)] *)
Definition async_wait (s : Socket) : Socket :=
  {| callback := callback s; client_id := client_id s;
     send_endpoint := send_endpoint s;
     send_buffer1 := send_buffer1 s; send_buffer2 := send_buffer2 s;
     receive_buffer := receive_buffer s;
     timer_expiry := timer_expiry s;
     timer_waits := S (timer_waits s);
     timer_cancelled := timer_cancelled s;
     receive_waits := receive_waits s;
     wire := wire s |}.

(** [socket.async_receive_from(buffer, endpoint, handler)] *)
Definition async_receive_from (s : Socket) : Socket :=
  {| callback := callback s; client_id := client_id s;
     send_endpoint := send_endpoint s;
     send_buffer1 := send_buffer1 s; send_buffer2 := send_buffer2 s;
     receive_buffer := receive_buffer s;
     timer_expiry := timer_expiry s;
     timer_waits := timer_waits s;
     timer_cancelled := timer_cancelled s;
     receive_waits := S (receive_waits s);
     wire := wire s |}.

Definition set_send_buffer1 (b : bytes) (s : Socket) : Socket :=
  {| callback := callback s; client_id := client_id s;
     send_endpoint := send_endpoint s;
     send_buffer1 := b; send_buffer2 := send_buffer2 s;
     receive_buffer := receive_buffer s;
     timer_expiry := timer_expiry s;
     timer_waits := timer_waits s;
     timer_cancelled := timer_cancelled s;
     receive_waits := receive_waits s;
     wire := wire s |}.

Definition set_send_buffer2 (b : bytes) (s : Socket) : Socket :=
  {| callback := callback s; client_id := client_id s;
     send_endpoint := send_endpoint s;
     send_buffer1 := send_buffer1 s; send_buffer2 := b;
     receive_buffer := receive_buffer s;
     timer_expiry := timer_expiry s;
     timer_waits := timer_waits s;
     timer_cancelled := timer_cancelled s;
     receive_waits := receive_waits s;
     wire := wire s |}.

Definition push_wire (c : SendCall) (s : Socket) : Socket :=
  {| callback := callback s; client_id := client_id s;
     send_endpoint := send_endpoint s;
     send_buffer1 := send_buffer1 s; send_buffer2 := send_buffer2 s;
     receive_buffer := receive_buffer s;
     timer_expiry := timer_expiry s;
     timer_waits := timer_waits s;
     timer_cancelled := timer_cancelled s;
     receive_waits := receive_waits s;
     wire := wire s ++ [c] |}.

(** [socket.send_to(buffer, destination)], the overload without an
    [error_code] argument: it returns the number of bytes sent, or throws
    [boost::system::system_error] on failure. *)
Definition send_to (data : bytes) (dest : endpoint) (r : send_result) : M Z :=
  modify_socket (push_wire {| sent_data := data; sent_to := dest; sent_result := r |}) ;;;
  match r with
  | SendOk len => ret len
  | SendFail ec => raise ec
  end.

(** [callback.f(data)] *)
Definition invoke {A} (f : A -> Client -> Client * list Effect) (data : A) : M unit :=
  fun w =>
    let '(c, j) := f data (client w) in
    (Normal tt, {| socket := socket w; client := c; journal := journal w ++ j |}).

Definition StartSend (from : time_point) : M unit :=
  modify_socket (expires_at (from + seconds 3)) ;;;
  modify_socket async_wait.

Definition StartReceive : M unit :=
  modify_socket async_receive_from.

Definition HandleReceive (error : error_code) (bytes_transferred : Z) : M unit :=
  s <- get_socket ;;
  match Validate (receive_buffer s) bytes_transferred with
  | Some Type_.Version => invoke (version (callback s)) (decode_Version (receive_buffer s))
  | Some Type_.PortInfo => invoke (port_info (callback s)) (decode_PortInfo (receive_buffer s))
  | Some Type_.PadData => invoke (pad_data (callback s)) (decode_PadData (receive_buffer s))
  | Some (Type_.Other _) => ret tt
  | None => ret tt
  end ;;;
  StartReceive.

(** [r1] and [r2] are the answers of the operating system to the first and
    to the second [send_to] of this tick. *)
Definition HandleSend (error : error_code) (r1 r2 : send_result) : M unit :=
  s <- get_socket ;;
  let port_info := {| Request.pad_count := 1; Request.port := [0; 0; 0; 0] |} in
  let port_message := Create_PortInfo port_info (client_id s) in
  modify_socket (set_send_buffer1 port_message) ;;;
  s1 <- get_socket ;;
  len <- send_to (send_buffer1 s1) (send_endpoint s1) r1 ;;
  let pad_data := {| Request.flags := Request.Id; Request.port_id := 0;
                     Request.mac := Request.EMPTY_MAC_ADDRESS |} in
  let pad_message := Create_PadData pad_data (client_id s) in
  modify_socket (set_send_buffer2 pad_message) ;;;
  s2 <- get_socket ;;
  len2 <- send_to (send_buffer2 s2) (send_endpoint s2) r2 ;;
  s3 <- get_socket ;;
  StartSend (timer_expiry s3).

(** *** The event loop

    [io_service::run] executes the handlers of completed operations one
    at a time.  The completions are the input of the model. *)

Inductive IoEvent : Type :=
  | Received (error : error_code) (datagram : bytes)
(* the outstanding receive completes *)
  | Expired (now : time_point) (r1 r2 : send_result)
(* the wait on the timer completes at wall-clock time [now] *)
  | Cancelled (r1 r2 : send_result)
(* the handler of a cancelled wait runs, with operation_aborted *)
  | StopRequested.
(* [Stop] was called from the owning thread *)

(** The operating system writes the datagram over the start of the buffer. *)
Definition fill (buf datagram : bytes) : bytes :=
  let got := firstn MAX_PACKET_SIZE datagram in
  got ++ skipn (length got) buf.

Definition set_receive_buffer (b : bytes) (s : Socket) : Socket :=
  {| callback := callback s; client_id := client_id s;
     send_endpoint := send_endpoint s;
     send_buffer1 := send_buffer1 s; send_buffer2 := send_buffer2 s;
     receive_buffer := b;
     timer_expiry := timer_expiry s;
     timer_waits := timer_waits s;
     timer_cancelled := timer_cancelled s;
     receive_waits := receive_waits s;
     wire := wire s |}.

Definition take_receive (s : Socket) : Socket :=
  {| callback := callback s; client_id := client_id s;
     send_endpoint := send_endpoint s;
     send_buffer1 := send_buffer1 s; send_buffer2 := send_buffer2 s;
     receive_buffer := receive_buffer s;
     timer_expiry := timer_expiry s;
     timer_waits := timer_waits s;
     timer_cancelled := timer_cancelled s;
     receive_waits := pred (receive_waits s);
     wire := wire s |}.

Definition take_wait (s : Socket) : Socket :=
  {| callback := callback s; client_id := client_id s;
     send_endpoint := send_endpoint s;
     send_buffer1 := send_buffer1 s; send_buffer2 := send_buffer2 s;
     receive_buffer := receive_buffer s;
     timer_expiry := timer_expiry s;
     timer_waits := pred (timer_waits s);
     timer_cancelled := timer_cancelled s;
     receive_waits := receive_waits s;
     wire := wire s |}.

Definition take_cancelled (s : Socket) : Socket :=
  {| callback := callback s; client_id := client_id s;
     send_endpoint := send_endpoint s;
     send_buffer1 := send_buffer1 s; send_buffer2 := send_buffer2 s;
     receive_buffer := receive_buffer s;
     timer_expiry := timer_expiry s;
     timer_waits := timer_waits s;
     timer_cancelled := pred (timer_cancelled s);
     receive_waits := receive_waits s;
     wire := wire s |}.

(** Can the completion happen in this state?  A receive completes only if
    one is outstanding; a wait completes normally only once the expiry of
    the timer has been reached. *)
Definition deliverable (ev : IoEvent) (s : Socket) : bool :=
  match ev with
  | Received _ _ => negb (Nat.eqb (receive_waits s) 0)
  | Expired now _ _ => negb (Nat.eqb (timer_waits s) 0) && (timer_expiry s <=? now)
  | Cancelled _ _ => negb (Nat.eqb (timer_cancelled s) 0)
  | StopRequested => true
  end.

Definition dispatch (ev : IoEvent) : M unit :=
  match ev with
  | Received success datagram =>
      modify_socket take_receive ;;;
      s <- get_socket ;;
      modify_socket (set_receive_buffer (fill (receive_buffer s) datagram)) ;;;
      HandleReceive success (Z.of_nat (Nat.min (length datagram) MAX_PACKET_SIZE))
  | Received error _ =>
      modify_socket take_receive ;;;
      HandleReceive error 0
  | Expired _ r1 r2 =>
      modify_socket take_wait ;;;
      HandleSend success r1 r2
  | Cancelled r1 r2 =>
      modify_socket take_cancelled ;;;
      HandleSend operation_aborted r1 r2
  | StopRequested => ret tt
  end.

(** How [Loop], and with it the thread of the engine, comes to an end.
    [Uncaught]: an exception left a handler, hence [io_service::run],
    [SocketLoop] and the entry function of the thread. *)
Inductive LoopExit : Type :=
  | Stopped                     (* [Stop] took effect *)
  | Waiting                     (* still running, blocked on the next completion *)
  | OutOfWork                   (* [run] returned: nothing is outstanding *)
  | Uncaught (e : error_code)
  | Unrealisable.               (* the completions offered cannot happen *)

Definition has_work (s : Socket) : bool :=
  negb (Nat.eqb (receive_waits s + timer_waits s + timer_cancelled s) 0).

Fixpoint Loop (evs : list IoEvent) (w : World) : LoopExit * World :=
  if has_work (socket w) then
    match evs with
    | [] => (Waiting, w)
    | StopRequested :: _ => (Stopped, w)
    | ev :: evs' =>
        if deliverable ev (socket w) then
          match dispatch ev w with
          | (Normal _, w') => Loop evs' w'
          | (Raised e, w') => (Uncaught e, w')
          end
        else (Unrealisable, w)
    end
  else (OutOfWork, w).

(** [SocketLoop], the entry function of the thread; [now] is the value of
    [Socket::clock::now()]. *)
Definition SocketLoop (now : time_point) (evs : list IoEvent) (w : World)
  : LoopExit * World :=
  match (StartReceive ;;; StartSend now) w with
  | (Normal _, w') => Loop evs w'
  | (Raised e, w') => (Uncaught e, w')
  end.

(** The state built by the constructors of [Socket] and [Client], before
    the thread starts.  The buffers are not initialised by the source; the
    counter starts at 0 (the member initialiser is in client.h). *)
Definition Socket_new (host : string) (port : Z) (id : Z) (cb : SocketCallback) : Socket :=
  {| callback := cb; client_id := id;
     send_endpoint := (host, port);
     send_buffer1 := []; send_buffer2 := [];
     receive_buffer := repeat Byte.x00 MAX_PACKET_SIZE;
     timer_expiry := 0;
     timer_waits := 0;
     timer_cancelled := 0;
     receive_waits := 0;
     wire := [] |}.

Definition Client_new (st : DeviceStatus) (host : string) (port : Z) (id : Z) : World :=
  {| socket := Socket_new host port id Client_callback;
     client := {| packet_sequence := 0; status := st |};
     journal := [Log (Info_Starting host port)] |}.

End Engine.

(** ** Reading a stored vector back as a wire sample *)

Definition as_accel (v : Vec3f) : Response.Accel.t :=
  {| Response.Accel.x := vx v; Response.Accel.y := vy v; Response.Accel.z := vz v |}.

Definition as_gyro (v : Vec3f) : Response.Gyro.t :=
  {| Response.Gyro.pitch := vx v; Response.Gyro.yaw := vy v; Response.Gyro.roll := vz v |}.

(** ** Sample values used by the examples *)

Definition accel_123 : Response.Accel.t :=
  {| Response.Accel.x := F32.of_int 1; Response.Accel.y := F32.of_int 2;
     Response.Accel.z := F32.of_int 3 |}.

Definition gyro_456 : Response.Gyro.t :=
  {| Response.Gyro.pitch := F32.of_int 4; Response.Gyro.yaw := F32.of_int 5;
     Response.Gyro.roll := F32.of_int 6 |}.

Definition sample_touch (active tx ty : Z) : Response.TouchPad.t :=
  {| Response.TouchPad.is_active := active; Response.TouchPad.x := tx;
     Response.TouchPad.y := ty |}.

Definition sample_pad (counter active tx ty : Z) : Response.PadData :=
  {| Response.packet_counter := counter;
     Response.touch_1 := sample_touch active tx ty;
     Response.accel := accel_123;
     Response.gyro := gyro_456 |}.

Definition sample_calibration : CalibrationData :=
  {| min_x := 100; min_y := 50; max_x := 200; max_y := 150 |}.

Definition degenerate_calibration : CalibrationData :=
  {| min_x := 100; min_y := 50; max_x := 100; max_y := 150 |}.

Definition origin : Vec3f := MakeVec F32.zero F32.zero F32.zero.

Definition sample_status (cal : option CalibrationData) : DeviceStatus :=
  {| motion_status := (origin, origin);
     touch_status := (F32.zero, F32.zero, false);
     touch_calibration := cal |}.

Definition sample_client (seq : Z) (cal : option CalibrationData) : Client :=
  {| packet_sequence := seq; status := sample_status cal |}.

(** ** Schedules of completions

    A run of the engine as the environment decides it: each heartbeat wait
    completes [late] ticks after the expiry the timer has at that moment
    (the deadline [T] is threaded by the schedule, three seconds at a time),
    with both sends answered by a byte count; datagrams arrive in between. *)

Inductive Arrival : Type :=
| Tick (late : nat) (len1 len2 : Z)
| Datagram (error : error_code) (data : bytes).

Fixpoint realise (ticks_per_second : Z) (T : time_point) (sched : list Arrival)
  : list IoEvent :=
  match sched with
  | [] => []
  | Tick late len1 len2 :: rest =>
      Expired (T + seconds ticks_per_second 3 + Z.of_nat late) (SendOk len1) (SendOk len2)
        :: realise ticks_per_second (T + seconds ticks_per_second 3) rest
  | Datagram error data :: rest =>
      Received error data :: realise ticks_per_second T rest
  end.

Fixpoint count_ticks (sched : list Arrival) : Z :=
  match sched with
  | [] => 0
  | Tick _ _ _ :: rest => 1 + count_ticks rest
  | Datagram _ _ :: rest => count_ticks rest
  end.

(** The two requests of a heartbeat, as [HandleSend] builds them. *)
Definition port_info_request : Request.PortInfo :=
  {| Request.pad_count := 1; Request.port := [0; 0; 0; 0] |}.

Definition pad_data_request : Request.PadData :=
  {| Request.flags := Request.Id; Request.port_id := 0;
     Request.mac := [0; 0; 0; 0; 0; 0] |}.

(** The states the event loop goes through once [SocketLoop] has armed the
    receive and the timer: one wait on the timer, due at [T], none cancelled,
    and a receive outstanding. *)
Definition armed (T : time_point) (s : Socket) : Prop :=
  timer_expiry s = T /\ timer_waits s = 1%nat /\ timer_cancelled s = 0%nat /\
  receive_waits s <> 0%nat.

(** The error of the first send of a tick that fails, if one does. *)
Definition first_failure (r1 r2 : send_result) : option error_code :=
  match r1, r2 with
  | SendFail e, _ => Some e
  | SendOk _, SendFail e => Some e
  | SendOk _, SendOk _ => None
  end.

(** How many of its two requests a tick hands to [send_to]. *)
Definition attempts (r1 : send_result) : nat :=
  match r1 with
  | SendFail _ => 1
  | SendOk _ => 2
  end.

(** ** A small codec, to run the engine on concrete input

    The first byte of a datagram is its type tag, the second the packet
    counter; a datagram of fewer than two bytes is malformed. *)

Definition toy_Validate (buf : bytes) (size : Z) : option Type_.t :=
  if size <? 2 then None
  else match buf with
       | Byte.x00 :: _ => Some Type_.Version
       | Byte.x01 :: _ => Some Type_.PortInfo
       | Byte.x02 :: _ => Some Type_.PadData
       | Byte.x03 :: _ => Some (Type_.Other 3)
       | _ => None
       end.

Definition toy_counter (buf : bytes) : Z :=
  match buf with
  | _ :: b :: _ => Z.of_N (Byte.to_N b)
  | _ => 0
  end.

Definition toy_decode_Version (buf : bytes) : Response.Version :=
  {| Response.version := toy_counter buf |}.

Definition toy_decode_PortInfo (buf : bytes) : Response.PortInfo :=
  {| Response.model := toy_counter buf |}.

Definition toy_decode_PadData (buf : bytes) : Response.PadData :=
  sample_pad (toy_counter buf) 1 250 0.

Definition toy_byte (z : Z) : Byte.byte :=
  match Byte.of_N (Z.to_N (z mod 256)) with
  | Some b => b
  | None => Byte.x00
  end.

Definition toy_Create_PortInfo (r : Request.PortInfo) (id : Z) : bytes :=
  [Byte.x01; toy_byte id; toy_byte (Request.pad_count r)]
    ++ map toy_byte (Request.port r).

Definition toy_Create_PadData (r : Request.PadData) (id : Z) : bytes :=
  [Byte.x02; toy_byte id;
   match Request.flags r with
   | Request.AllPorts => Byte.x00
   | Request.Id => Byte.x01
   | Request.Mac => Byte.x02
   end;
   toy_byte (Request.port_id r)] ++ map toy_byte (Request.mac r).

Definition toy_MAX_PACKET_SIZE : nat := 8.
Definition toy_ticks_per_second : Z := 1000.

Definition toy_HandleReceive : error_code -> Z -> M unit :=
  HandleReceive toy_Validate toy_decode_Version toy_decode_PortInfo toy_decode_PadData.

Definition toy_HandleSend : error_code -> send_result -> send_result -> M unit :=
  HandleSend toy_Create_PortInfo toy_Create_PadData toy_ticks_per_second.

Definition toy_SocketLoop : time_point -> list IoEvent -> World -> LoopExit * World :=
  SocketLoop toy_MAX_PACKET_SIZE toy_Validate
    toy_decode_Version toy_decode_PortInfo toy_decode_PadData
    toy_Create_PortInfo toy_Create_PadData toy_ticks_per_second.

Definition toy_world : World :=
  Client_new toy_MAX_PACKET_SIZE (sample_status (Some sample_calibration))
    "127.0.0.1" 26760 7.

Ltac split_stale data c :=
  unfold OnPadData;
  destruct (Z.leb_spec (Response.packet_counter data) (packet_sequence c)).

(** ** Runs of packets and of completions *)

(** The packets of a run that [OnPadData] accepts when the counter starts at
    [s]: each one whose counter is above every counter before it and above
    [s]. *)
Fixpoint newer (s : Z) (ds : list Response.PadData) : list Response.PadData :=
  match ds with
  | [] => []
  | d :: rest =>
      if Response.packet_counter d <=? s then newer s rest
      else d :: newer (Response.packet_counter d) rest
  end.

Definition is_log (e : Effect) : bool :=
  match e with
  | Log _ => true
  | _ => false
  end.

(** What the scope of the [lock_guard] does for one accepted packet. *)
Definition critical_section (cal : option CalibrationData) (d : Response.PadData)
  : list Effect :=
  [Lock;
   StoreMotion (remap_accel (Response.accel d), remap_gyro (Response.gyro d));
   StoreTouch (touch_of cal (Response.touch_1 d));
   Unlock].

(** The discipline of a mutex over a journal: it is taken only when free,
    released only when held, stores happen only while it is held, and it is
    free at the end. *)
Fixpoint well_locked (held : bool) (j : list Effect) : bool :=
  match j with
  | [] => negb held
  | Lock :: r => negb held && well_locked true r
  | Unlock :: r => held && well_locked false r
  | StoreMotion _ :: r => held && well_locked held r
  | StoreTouch _ :: r => held && well_locked held r
  | Log _ :: r => well_locked held r
  end.

(** A [send_to] of one of the two requests of a heartbeat, to the peer. *)
Definition fixed_request
    (Create_PortInfo : Request.PortInfo -> Z -> bytes)
    (Create_PadData : Request.PadData -> Z -> bytes)
    (id : Z) (peer : endpoint) (c : SendCall) : Prop :=
  sent_to c = peer /\
  (sent_data c = Create_PortInfo port_info_request id \/
   sent_data c = Create_PadData pad_data_request id).

(** The socket of a running engine: the members set by the constructor are
    as they were, the receive buffer has its capacity, one receive is
    outstanding, at most one wait is on the timer and none was cancelled,
    and nothing but the two requests was ever sent. *)
Definition steady
    (MAX_PACKET_SIZE : nat)
    (Create_PortInfo : Request.PortInfo -> Z -> bytes)
    (Create_PadData : Request.PadData -> Z -> bytes)
    (id : Z) (peer : endpoint) (s : Socket) : Prop :=
  callback s = Client_callback /\
  client_id s = id /\
  send_endpoint s = peer /\
  length (receive_buffer s) = MAX_PACKET_SIZE /\
  receive_waits s = 1%nat /\
  (timer_waits s <= 1)%nat /\
  timer_cancelled s = 0%nat /\
  Forall (fixed_request Create_PortInfo Create_PadData id peer) (wire s).

(** What the client keeps through a run: the calibration it was given, and a
    counter that does not go down. *)
Definition kept (cal : option CalibrationData) (lo : Z) (c : Client) : Prop :=
  touch_calibration (status c) = cal /\ lo <= packet_sequence c.

(** The magnitudes of the components of a vector. *)
Definition magnitudes (v : Vec3f) : Vec3f :=
  MakeVec (SFabs (vx v)) (SFabs (vy v)) (SFabs (vz v)).

Definition accel_vector (a : Response.Accel.t) : Vec3f :=
  MakeVec (Response.Accel.x a) (Response.Accel.y a) (Response.Accel.z a).

Definition gyro_vector (g : Response.Gyro.t) : Vec3f :=
  MakeVec (Response.Gyro.pitch g) (Response.Gyro.yaw g) (Response.Gyro.roll g).

Definition is_stop (ev : IoEvent) : bool :=
  match ev with
  | StopRequested => true
  | _ => false
  end.

(** * Properties of single precision arithmetic *)

Section FloatFacts.

Lemma digits2_pos_log2 (p : positive) : Zpos (digits2_pos p) = Z.log2 (Zpos p~0).
Proof.
  cbn [Z.log2]. f_equal; induction p; cbn; congruence.
Qed.

Lemma digits2_pos_bounds (p : positive) :
  2 ^ (Zpos (digits2_pos p) - 1) <= Zpos p < 2 ^ (Zpos (digits2_pos p)).
Proof.
  rewrite digits2_pos_log2.
  pose proof (Z.log2_spec (Zpos p~0) eq_refl) as [H1 H2].
  assert (Hpos : 0 < Z.log2 (Zpos p~0)).
  { apply Z.log2_pos. lia. }
  replace (Z.log2 (Zpos p~0)) with (Z.succ (Z.log2 (Zpos p~0) - 1)) in H1 at 1 by lia.
  rewrite Z.pow_succ_r in H1, H2 by lia. lia.
Qed.

Lemma digits2_pos_unique (p : positive) (k : Z) :
  2 ^ (k - 1) <= Zpos p < 2 ^ k -> Zpos (digits2_pos p) = k.
Proof.
  intros [H1 H2].
  assert (Hk : 0 < k).
  { destruct (Z.lt_trichotomy k 0) as [H | [H | H]]; auto.
    - rewrite Z.pow_neg_r in H2 by lia. lia.
    - subst k. cbn in H2. lia. }
  rewrite digits2_pos_log2.
  apply Z.log2_unique; [lia |].
  replace k with (Z.succ (k - 1)) at 1 by lia.
  rewrite !Z.pow_succ_r by lia. lia.
Qed.

Lemma round_exact (s : bool) (m : positive) (e : Z) :
  Zpos (digits2_pos m) = 24 -> -149 <= e <= 104 ->
  binary_round_aux F32.prec F32.emax s (Zpos m) e loc_Exact = S754_finite s m e.
Proof.
  intros Hd He.
  unfold binary_round_aux, shr_fexp, fexp, emin, F32.prec, F32.emax, Zdigits2.
  rewrite Hd.
  replace (Z.max (24 + e - 24) (3 - 128 - 24) - e) with 0 by lia.
  cbn [shr shr_record_of_loc shr_m loc_of_shr_record round_nearest_even Zdigits2].
  rewrite Hd.
  replace (Z.max (24 + e - 24) (3 - 128 - 24) - e) with 0 by lia.
  cbn [shr shr_record_of_loc shr_m].
  replace (e <=? 128 - 24) with true by (symmetry; apply Z.leb_le; lia).
  reflexivity.
Qed.

Lemma iter_xO_value (p k : positive) : Zpos (Pos.iter xO p k) = Zpos p * 2 ^ Zpos k.
Proof.
  change (Pos.iter xO p k) with (shift_pos k p).
  rewrite shift_pos_correct. change (Z.pow_pos 2 k) with (2 ^ Zpos k). lia.
Qed.

Lemma of_int_normal (n : Z) :
  0 < n < 2 ^ 24 ->
  exists m, F32.of_int n = S754_finite false m (Zdigits2 n - 24) /\
            Zpos m = n * 2 ^ (24 - Zdigits2 n) /\
            Zpos (digits2_pos m) = 24.
Proof.
  intros [Hpos Hlt]. destruct n as [| p | p]; try lia.
  cbn [Zdigits2].
  pose proof (digits2_pos_bounds p) as [Hlo Hhi].
  set (d := Zpos (digits2_pos p)) in *.
  assert (Hd : 1 <= d <= 24).
  { split; [unfold d; lia |].
    destruct (Z.le_gt_cases d 24) as [H | H]; auto.
    assert (2 ^ 24 <= 2 ^ (d - 1)) by (apply Z.pow_le_mono_r; lia). lia. }
  unfold F32.of_int, binary_normalize, binary_round.
  replace (fexp F32.prec F32.emax (Zpos (digits2_pos p) + 0)) with (d - 24)
    by (unfold fexp, emin, F32.prec, F32.emax; fold d; lia).
  unfold shl_align.
  destruct (d - 24 - 0) as [| k | k] eqn:Ek; try lia.
  - assert (d = 24) by lia.
    exists p. rewrite round_exact by (fold d; lia).
    replace (24 - d) with 0 by lia. replace (d - 24) with 0 by lia.
    rewrite Z.pow_0_r, Z.mul_1_r. repeat split; auto.
  - assert (Hk : Zpos k = 24 - d) by lia.
    exists (Pos.iter xO p k).
    assert (Hval : Zpos (Pos.iter xO p k) = Zpos p * 2 ^ (24 - d)).
    { rewrite iter_xO_value. now rewrite Hk. }
    assert (Hdig : Zpos (digits2_pos (Pos.iter xO p k)) = 24).
    { apply digits2_pos_unique. rewrite Hval.
      replace (2 ^ (24 - 1)) with (2 ^ (d - 1) * 2 ^ (24 - d))
        by (rewrite <- Z.pow_add_r by lia; f_equal; lia).
      replace (2 ^ 24) with (2 ^ d * 2 ^ (24 - d))
        by (rewrite <- Z.pow_add_r by lia; f_equal; lia).
      assert (0 < 2 ^ (24 - d)) by (apply Z.pow_pos_nonneg; lia).
      split; [apply Z.mul_le_mono_nonneg_r | apply Z.mul_lt_mono_pos_r]; lia. }
    rewrite round_exact by (auto; lia).
    repeat split; auto.
Qed.

Lemma binary_round_aux_finish (s : bool) (m e : Z) (l : location) :
  binary_round_aux F32.prec F32.emax s m e l =
    let '(mrs, e1) := shr_fexp F32.prec F32.emax m e l in
    F32.finish s (round_nearest_even (shr_m mrs) (loc_of_shr_record mrs)) e1.
Proof. unfold binary_round_aux, F32.finish. destruct (shr_fexp F32.prec F32.emax m e l). reflexivity. Qed.

Lemma finish_normal (m : positive) (e : Z) :
  2 ^ 23 <= Zpos m <= 2 ^ 24 -> -149 <= e <= 102 ->
  exists m' e',
    F32.finish false (Zpos m) e = S754_finite false m' e' /\
    Zpos (digits2_pos m') = 24 /\
    ((e' = e /\ m' = m) \/ (e' = e + 1 /\ m' = F32.two23 /\ Zpos m = 2 ^ 24)).
Proof.
  intros [Hlo Hhi] He.
  destruct (Z.eq_dec (Zpos m) (2 ^ 24)) as [Heq | Hne].
  - assert (m = 16777216%positive) by (apply Pos2Z.inj; exact Heq). subst m.
    exists F32.two23, (e + 1).
    unfold F32.finish, shr_fexp, fexp, emin, F32.prec, F32.emax.
    change (Zdigits2 16777216) with 25.
    replace (Z.max (25 + e - 24) (3 - 128 - 24) - e) with 1 by lia.
    cbn [shr iter_pos shr_record_of_loc shr_1 shr_m orb].
    replace (e + 1 <=? 128 - 24) with true by (symmetry; apply Z.leb_le; lia).
    repeat split; auto.
  - assert (Hd : Zpos (digits2_pos m) = 24) by (apply digits2_pos_unique; lia).
    exists m, e.
    unfold F32.finish, shr_fexp, fexp, emin, F32.prec, F32.emax, Zdigits2. rewrite Hd.
    replace (Z.max (24 + e - 24) (3 - 128 - 24) - e) with 0 by lia.
    cbn [shr shr_record_of_loc shr_m].
    replace (e <=? 128 - 24) with true by (symmetry; apply Z.leb_le; lia).
    repeat split; auto.
Qed.

Lemma round_nearest_even_cases (m : Z) (l : location) :
  round_nearest_even m l = m \/ round_nearest_even m l = m + 1.
Proof.
  destruct l as [| []]; cbn; auto. destruct (Z.even m); auto.
Qed.

Lemma shr_record_of_loc_m (m : Z) (l : location) : shr_m (shr_record_of_loc m l) = m.
Proof. destruct l as [| []]; reflexivity. Qed.

Lemma new_location_zero (n : Z) : new_location n 0 = loc_Exact.
Proof. unfold new_location. destruct (Z.even n); reflexivity. Qed.

(** What the location computed by the division says about the remainder. *)
Lemma new_location_spec (d r : Z) :
  0 <= r < d ->
  match new_location d r with
  | loc_Exact => r = 0
  | loc_Inexact Lt => 0 < r /\ 2 * r < d
  | loc_Inexact Eq => 2 * r = d
  | loc_Inexact Gt => d < 2 * r
  end.
Proof.
  intros Hr. unfold new_location, new_location_even, new_location_odd.
  destruct (Z.even d) eqn:Ed; destruct (Z.eqb_spec r 0) as [E0 | E0]; auto.
  - destruct (Z.compare_spec (2 * r) d); lia.
  - assert (2 * r <> d).
    { intros <-. rewrite Z.even_mul in Ed. discriminate. }
    destruct (Z.compare_spec (2 * r + 1) d); lia.
Qed.

(** Rounding the quotient [q + r/d], with the location of the remainder:
    the result has 24 digits, its exponent is [e + j], and it is within
    half a unit of its last digit of the exact quotient. *)
Lemma round_div (q : positive) (d r e : Z) :
  0 <= r < d ->
  2 ^ 23 <= Zpos q < 2 ^ 25 -> -149 <= e <= 100 ->
  exists m j,
    binary_round_aux F32.prec F32.emax false (Zpos q) e (new_location d r)
      = S754_finite false m (e + j) /\
    Zpos (digits2_pos m) = 24 /\
    2 * Z.abs (Zpos q * d + r - 2 ^ j * Zpos m * d) <= 2 ^ j * d /\
    ((Zpos q < 2 ^ 24 /\ (j = 0 \/ (j = 1 /\ m = F32.two23))) \/
     (2 ^ 24 <= Zpos q /\ (j = 1 \/ (j = 2 /\ m = F32.two23)))).
Proof.
  intros Hr [Hlo Hhi] He. rewrite binary_round_aux_finish.
  pose proof (new_location_spec d r Hr) as Hloc.
  destruct (Z.lt_ge_cases (Zpos q) (2 ^ 24)) as [Hlt | Hge].
  - assert (Hd : Zpos (digits2_pos q) = 24) by (apply digits2_pos_unique; lia).
    unfold shr_fexp, fexp, emin, F32.prec, F32.emax, Zdigits2. rewrite Hd.
    replace (Z.max (24 + e - 24) (3 - 128 - 24) - e) with 0 by lia.
    cbn [shr]. rewrite shr_record_of_loc_m.
    set (m1 := round_nearest_even (Zpos q)
                 (loc_of_shr_record (shr_record_of_loc (Zpos q) (new_location d r)))).
    assert (Hm1 : (m1 = Zpos q \/ m1 = Zpos q + 1) /\ 2 * Z.abs (Zpos q * d + r - m1 * d) <= d).
    { unfold m1. destruct (new_location d r) as [| []];
        cbn [round_nearest_even loc_of_shr_record shr_record_of_loc];
        try destruct (Z.even (Zpos q)); split; auto; lia. }
    destruct Hm1 as [Hc Hacc].
    assert (Hpos : exists m1', m1 = Zpos m1').
    { destruct Hc as [-> | ->]; [exists q | exists (q + 1)%positive]; reflexivity. }
    destruct Hpos as (m1' & Em1). rewrite Em1 in *.
    destruct (finish_normal m1' e) as (m' & e' & Hf & Hdm & Hfin); [lia | lia |].
    destruct Hfin as [[-> ->] | (-> & -> & E24)].
    + exists m1', 0. rewrite Z.add_0_r. split; [exact Hf |]. split; [exact Hdm |].
      split; [change (2 ^ 0) with 1; lia | left; auto].
    + exists F32.two23, 1. split; [exact Hf |]. split; [reflexivity |].
      split; [| left; auto]. change (2 ^ 24) with 16777216 in E24.
      change (2 ^ 1) with 2. change (Zpos F32.two23) with 8388608. lia.
  - assert (Hd : Zpos (digits2_pos q) = 25) by (apply digits2_pos_unique; lia).
    unfold shr_fexp, fexp, emin, F32.prec, F32.emax, Zdigits2. rewrite Hd.
    replace (Z.max (25 + e - 24) (3 - 128 - 24) - e) with 1 by lia.
    cbn [shr iter_pos].
    set (mrs := shr_1 (shr_record_of_loc (Zpos q) (new_location d r))).
    set (m1 := round_nearest_even (shr_m mrs) (loc_of_shr_record mrs)).
    assert (Hm1 : exists m1', m1 = Zpos m1' /\ 2 ^ 23 <= Zpos m1' <= 2 ^ 24 /\
                   Z.abs (Zpos q * d + r - 2 * Zpos m1' * d) <= d).
    { unfold m1, mrs. change (2 ^ 23) with 8388608. change (2 ^ 24) with 16777216 in *.
      change (2 ^ 25) with 33554432 in *.
      destruct q as [p | p |]; [| | lia];
        destruct (new_location d r) as [| []];
        cbn [round_nearest_even loc_of_shr_record shr_record_of_loc shr_1 shr_m orb];
        try destruct (Z.even (Zpos p));
        first [ exists p; split; [reflexivity | lia]
              | exists (p + 1)%positive; split; [reflexivity | lia] ]. }
    destruct Hm1 as (m1' & Em1 & Hb & Hacc). rewrite Em1.
    destruct (finish_normal m1' (e + 1)) as (m' & e' & Hf & Hdm & Hfin); [lia | lia |].
    destruct Hfin as [[-> ->] | (-> & -> & E24)].
    + exists m1', 1. split; [exact Hf |]. split; [exact Hdm |].
      split; [change (2 ^ 1) with 2; lia | right; auto].
    + exists F32.two23, 2. replace (e + 2) with (e + 1 + 1) by lia.
      split; [exact Hf |]. split; [reflexivity |].
      split; [| right; auto]. change (2 ^ 24) with 16777216 in E24.
      change (2 ^ 2) with 4. change (Zpos F32.two23) with 8388608. lia.
Qed.

Lemma SFdiv_normal (mx my : positive) (ex ey : Z) :
  Zpos (digits2_pos mx) = 24 -> Zpos (digits2_pos my) = 24 ->
  -100 <= ex - ey <= 100 ->
  F32.div (S754_finite false mx ex) (S754_finite false my ey) =
    binary_round_aux F32.prec F32.emax false
      (Zpos mx * 2 ^ 24 / Zpos my) (ex - ey - 24)
      (new_location (Zpos my) ((Zpos mx * 2 ^ 24) mod Zpos my)).
Proof.
  intros Hx Hy He.
  unfold F32.div, SFdiv, SFdiv_core_binary, fexp, emin, F32.prec, F32.emax, Zdigits2.
  rewrite Hx, Hy.
  replace (Z.min (Z.max (24 + ex - (24 + ey) - 24) (3 - 128 - 24)) (ex - ey))
    with (ex - ey - 24) by lia.
  replace (ex - ey - (ex - ey - 24)) with 24 by lia.
  rewrite Z.shiftl_mul_pow2 by lia.
  unfold Z.div, Z.modulo.
  destruct (Z.div_eucl (Zpos mx * 2 ^ 24) (Zpos my)) as [q r].
  reflexivity.
Qed.

(** Quotient of two normal floats, the first not above the second: a normal
    float, at most 1, within half a unit of its last digit of the exact
    quotient. *)
Lemma SFdiv_le_one (mx my : positive) (ex ey : Z) :
  Zpos (digits2_pos mx) = 24 -> Zpos (digits2_pos my) = 24 ->
  -100 <= ex - ey ->
  (ex < ey \/ (ex = ey /\ Zpos mx <= Zpos my)) ->
  exists m j,
    F32.div (S754_finite false mx ex) (S754_finite false my ey)
      = S754_finite false m (ex - ey - 24 + j) /\
    Zpos (digits2_pos m) = 24 /\
    0 <= j <= 2 /\
    2 * Z.abs (Zpos mx * 2 ^ 24 - 2 ^ j * Zpos m * Zpos my) <= 2 ^ j * Zpos my /\
    (ex - ey - 24 + j <= -24 \/ (ex - ey - 24 + j = -23 /\ m = F32.two23)).
Proof.
  intros Hx Hy Hlow Hle.
  pose proof (digits2_pos_bounds mx) as Bx. rewrite Hx in Bx.
  pose proof (digits2_pos_bounds my) as By. rewrite Hy in By.
  change (2 ^ (24 - 1)) with 8388608 in Bx, By.
  change (2 ^ 24) with 16777216 in Bx, By.
  rewrite SFdiv_normal by (auto; lia).
  change (2 ^ 24) with 16777216.
  set (q := Zpos mx * 16777216 / Zpos my).
  set (r := (Zpos mx * 16777216) mod Zpos my).
  assert (Hq : Zpos mx * 16777216 = q * Zpos my + r /\ 0 <= r < Zpos my).
  { unfold q, r. split; [| apply Z.mod_pos_bound; lia].
    rewrite (Z.mul_comm (_ / _)). apply Z.div_mod. lia. }
  destruct Hq as [Hq Hr].
  assert (Hqlo : 8388608 <= q) by nia.
  assert (Hqhi : q < 33554432) by nia.
  destruct q as [| q' | q'] eqn:Eq; try lia.
  destruct (round_div q' (Zpos my) r (ex - ey - 24) Hr) as (m & j & Hres & Hd & Hacc & Hc);
    [cbn; lia | lia |].
  exists m, j. split; [exact Hres |]. split; [exact Hd |].
  change (2 ^ 24) with 16777216 in Hc.
  assert (Hj : 0 <= j <= 2) by (destruct Hc as [[_ [? | [? _]]] | [_ [? | [? _]]]]; lia).
  split; [exact Hj |]. split; [rewrite Hq; exact Hacc |].
  destruct Hle as [Hlt | [Hee Hmm]].
  - destruct Hc as [[_ [He | [He Hm]]] | [_ [He | [He Hm]]]]; try (left; lia).
    destruct (Z.eq_dec (ex - ey) (-1)); [right; split; [lia | auto] | left; lia].
  - subst ey.
    destruct (Z.eq_dec (Zpos mx) (Zpos my)) as [Heq | Hne].
    + (* equal operands: the quotient is exactly 2^24 *)
      assert (Zpos q' = 16777216 /\ r = 0) as [Eq' Er] by nia.
      destruct Hc as [[Hlt' _] | [_ [He | [He Hm]]]]; [lia | |].
      * right. split; [lia |]. subst j r. rewrite Eq' in Hacc.
        change (2 ^ 1) with 2 in Hacc.
        assert (Zpos m = 8388608) by nia. apply Pos2Z.inj. assumption.
      * exfalso. subst j r m. rewrite Eq' in Hacc. change (2 ^ 2) with 4 in Hacc.
        change (Zpos F32.two23) with 8388608 in Hacc. lia.
    + assert (Zpos q' < 16777216) by nia.
      destruct Hc as [[_ [He | [He Hm]]] | [Hge _]]; [left; lia | right; split; [lia | auto] | lia].
Qed.

Lemma Zdigits2_mono (n d : Z) : 0 < n <= d -> Zdigits2 n <= Zdigits2 d.
Proof.
  intros [Hn Hd]. destruct n as [| p | p], d as [| q | q]; try lia.
  cbn [Zdigits2]. rewrite !digits2_pos_log2. apply Z.log2_le_mono. lia.
Qed.

Lemma Zdigits2_range (n : Z) : 0 < n < 2 ^ 24 -> 1 <= Zdigits2 n <= 24.
Proof.
  intros [Hn Hlt]. destruct n as [| q |]; try lia. cbn [Zdigits2].
  pose proof (digits2_pos_bounds q) as [Hlo _]. split; [lia |].
  destruct (Z.le_gt_cases (Zpos (digits2_pos q)) 24) as [H | H]; auto.
  assert (2 ^ 24 <= 2 ^ (Zpos (digits2_pos q) - 1)) by (apply Z.pow_le_mono_r; lia).
  lia.
Qed.

Lemma in_unit_normal (m : positive) (e : Z) :
  e <= -24 \/ (e = -23 /\ m = F32.two23) ->
  F32.in_unit (S754_finite false m e) = true.
Proof.
  intros H. unfold F32.in_unit, F32.leb, SFleb. cbn [SFcompare F32.zero andb].
  change F32.one with (S754_finite false F32.two23 (-23)). cbn [SFcompare].
  destruct H as [H | [H1 H2]].
  - destruct (Z.compare_spec e (-23)); try lia; reflexivity.
  - subst. reflexivity.
Qed.

Lemma div_of_int_spec (n d : Z) :
  0 <= n <= d -> 0 < d < 2 ^ 24 ->
  F32.in_unit (F32.div (F32.of_int n) (F32.of_int d)) = true /\
  F32.eqb (F32.of_int d) F32.zero = false /\
  F32.nearest_quotient n d (F32.div (F32.of_int n) (F32.of_int d)).
Proof.
  intros [Hn Hnd] Hd.
  destruct (of_int_normal d Hd) as (my & Ey & Vy & Dy).
  destruct (Z.eq_dec n 0) as [-> | Hn0].
  - rewrite Ey. repeat split.
  - assert (Hn' : 0 < n < 2 ^ 24) by lia.
    destruct (of_int_normal n Hn') as (mx & Ex & Vx & Dx).
    rewrite Ex, Ey.
    pose proof (Zdigits2_mono n d ltac:(lia)) as Hmono.
    pose proof (Zdigits2_range n Hn') as Rn.
    pose proof (Zdigits2_range d Hd) as Rd.
    set (a := Zdigits2 n) in *. set (b := Zdigits2 d) in *.
    destruct (SFdiv_le_one mx my (a - 24) (b - 24) Dx Dy) as (m & j & Hr & Hdm & Hj & Hacc & Hc).
    + lia.
    + destruct (Z.eq_dec a b) as [E | E]; [right | left; lia].
      split; [lia |]. rewrite Vx, Vy, E.
      apply Z.mul_le_mono_nonneg_r; [apply Z.pow_nonneg |]; lia.
    + rewrite Hr. split; [now apply in_unit_normal |]. split; [reflexivity |].
      cbn [F32.nearest_quotient]. split; [exact Hdm |]. split; [lia |].
      replace (- (a - 24 - (b - 24) - 24 + j)) with (24 + b - a - j) by lia.
      set (K := 2 ^ j * 2 ^ (24 - b)).
      assert (HK : 0 < K) by (apply Z.mul_pos_pos; apply Z.pow_pos_nonneg; lia).
      assert (E1 : Zpos mx * 2 ^ 24 = n * 2 ^ (24 + b - a - j) * K).
      { rewrite Vx. unfold K.
        rewrite <- !Z.mul_assoc, <- !Z.pow_add_r by lia. do 2 f_equal. lia. }
      assert (E2 : 2 ^ j * Zpos m * Zpos my = Zpos m * d * K).
      { rewrite Vy. unfold K. lia. }
      assert (E3 : 2 ^ j * Zpos my = d * K).
      { rewrite Vy. unfold K. lia. }
      rewrite E1, E2, E3, <- Z.mul_sub_distr_r, Z.abs_mul, (Z.abs_eq K), Z.mul_assoc in Hacc by lia.
      apply Z.mul_le_mono_pos_r in Hacc; assumption.
Qed.

End FloatFacts.

(** * Properties of the client facade *)

Section ClientFacts.

Lemma OnPadData_stale (data : Response.PadData) (c : Client) :
  Response.packet_counter data <= packet_sequence c ->
  OnPadData data c =
    (c, [Log Trace_PadData;
         Log (Warning_StalePadData (packet_sequence c) (Response.packet_counter data))]).
Proof. intros H. split_stale data c; [reflexivity | lia]. Qed.

Lemma OnPadData_fresh (data : Response.PadData) (c : Client) :
  packet_sequence c < Response.packet_counter data ->
  OnPadData data c =
    (let accel := remap_accel (Response.accel data) in
     let gyro := remap_gyro (Response.gyro data) in
     let touch := touch_of (touch_calibration (status c)) (Response.touch_1 data) in
     ({| packet_sequence := Response.packet_counter data;
         status := {| motion_status := (accel, gyro);
                      touch_status := touch;
                      touch_calibration := touch_calibration (status c) |} |},
      [Log Trace_PadData; Lock; StoreMotion (accel, gyro); StoreTouch touch; Unlock])).
Proof. intros H. split_stale data c; [lia | reflexivity]. Qed.

Lemma OnPadData_packet_sequence (data : Response.PadData) (c : Client) :
  packet_sequence (fst (OnPadData data c))
    = Z.max (packet_sequence c) (Response.packet_counter data).
Proof.
  destruct (Z.le_gt_cases (Response.packet_counter data) (packet_sequence c)) as [Hle | Hgt].
  - rewrite (OnPadData_stale _ _ Hle). cbn [fst]. lia.
  - rewrite (OnPadData_fresh _ _ Hgt). cbn [fst packet_sequence]. lia.
Qed.

(** C1. A PadData packet updates the shared status and [packet_sequence]
    exactly when its counter is strictly greater than [packet_sequence].
    Then the counter becomes the packet's, the motion written is the
    packet's with its axes changed, the touch flag is the packet's, the
    calibration is kept, and the two stores of the journal are those of the
    motion and of the touch that the status holds afterwards.  Otherwise
    nothing is stored and the client, that is the counter and the whole
    status, is returned as it was. *)
Theorem OnPadData_updates_iff_newer (data : Response.PadData) (c : Client) :
  (existsb is_store (snd (OnPadData data c)) = true
     <-> packet_sequence c < Response.packet_counter data) /\
  (fst (OnPadData data c) = c
     <-> Response.packet_counter data <= packet_sequence c) /\
  packet_sequence (fst (OnPadData data c))
    = Z.max (packet_sequence c) (Response.packet_counter data) /\
  (packet_sequence c < Response.packet_counter data ->
     let a := Response.accel data in
     let g := Response.gyro data in
     let st := status (fst (OnPadData data c)) in
     packet_sequence (fst (OnPadData data c)) = Response.packet_counter data /\
     motion_status st
       = (MakeVec (F32.neg (Response.Accel.x a)) (Response.Accel.y a)
                  (F32.neg (Response.Accel.z a)),
          MakeVec (F32.neg (Response.Gyro.pitch g)) (F32.neg (Response.Gyro.yaw g))
                  (Response.Gyro.roll g)) /\
     snd (touch_status st)
       = negb (Response.TouchPad.is_active (Response.touch_1 data) =? 0) /\
     touch_calibration st = touch_calibration (status c) /\
     filter is_store (snd (OnPadData data c))
       = [StoreMotion (motion_status st); StoreTouch (touch_status st)]) /\
  (Response.packet_counter data <= packet_sequence c ->
     status (fst (OnPadData data c)) = status c /\
     packet_sequence (fst (OnPadData data c)) = packet_sequence c /\
     filter is_store (snd (OnPadData data c)) = []).
Proof.
  split; [| split; [| split; [apply OnPadData_packet_sequence | split]]].
  - destruct (Z.le_gt_cases (Response.packet_counter data) (packet_sequence c)) as [Hle | Hgt].
    + rewrite (OnPadData_stale _ _ Hle). cbn [snd existsb is_store orb].
      split; [discriminate | lia].
    + rewrite (OnPadData_fresh _ _ Hgt). cbn [snd existsb is_store orb].
      split; [intros _; lia | reflexivity].
  - destruct (Z.le_gt_cases (Response.packet_counter data) (packet_sequence c)) as [Hle | Hgt].
    + rewrite (OnPadData_stale _ _ Hle). cbn [fst]. split; [intros _; exact Hle | reflexivity].
    + split; [| lia]. intros H. apply (f_equal packet_sequence) in H.
      rewrite OnPadData_packet_sequence in H. lia.
  - intros Hgt a g st. unfold st. rewrite (OnPadData_fresh _ _ Hgt).
    cbn [fst snd status packet_sequence motion_status touch_status touch_calibration
         filter is_store].
    repeat split. unfold touch_of.
    destruct (negb (Response.TouchPad.is_active (Response.touch_1 data) =? 0));
      destruct (touch_calibration (status c)); reflexivity.
  - intros Hle. rewrite (OnPadData_stale _ _ Hle). repeat split.
Qed.

(** The counter after a run of packets is the largest counter seen. *)
Lemma feed_packet_sequence (ds : list Response.PadData) (c : Client) :
  packet_sequence (fst (feed ds c))
    = fold_left Z.max (map Response.packet_counter ds) (packet_sequence c).
Proof.
  revert c. induction ds as [| d ds IH]; intros c; [reflexivity |].
  cbn [feed map fold_left].
  pose proof (OnPadData_packet_sequence d c) as Hmax.
  destruct (OnPadData d c) as [c1 j1] eqn:E1. cbn [fst] in Hmax.
  specialize (IH c1). destruct (feed ds c1) as [c2 j2]. cbn [fst] in *.
  now rewrite IH, Hmax.
Qed.

Lemma fold_max_ge (l : list Z) (s : Z) : s <= fold_left Z.max l s.
Proof.
  revert s. induction l as [| a l IH]; intros s; cbn [fold_left]; [lia |].
  etransitivity; [| apply IH]. lia.
Qed.

(** A packet whose counter was already reached changes nothing, wherever
    it comes in the run: in particular the duplicate of an accepted one. *)
Lemma feed_duplicate (d : Response.PadData) (ds : list Response.PadData) (c : Client) :
  let c' := fst (feed (d :: ds) c) in
  fst (OnPadData d c') = c' /\ existsb is_store (snd (OnPadData d c')) = false.
Proof.
  cbn zeta.
  assert (Hle : Response.packet_counter d <= packet_sequence (fst (feed (d :: ds) c))).
  { rewrite feed_packet_sequence. cbn [map fold_left].
    etransitivity; [| apply fold_max_ge]. lia. }
  rewrite (OnPadData_stale _ _ Hle). split; reflexivity.
Qed.

(** C9. The Version and PortInfo callbacks only log: the client (counter
    and shared status) comes back as it was and nothing is stored. *)
Theorem OnVersion_OnPortInfo_diagnostic_only
    (v : Response.Version) (p : Response.PortInfo) (c : Client) :
  fst (OnVersion v c) = c /\
  fst (OnPortInfo p c) = c /\
  existsb is_store (snd (OnVersion v c)) = false /\
  existsb is_store (snd (OnPortInfo p c)) = false /\
  snd (OnVersion v c) = [Log (Trace_Version (Response.version v))] /\
  snd (OnPortInfo p c) = [Log (Trace_PortInfo (Response.model p))].
Proof. repeat split. Qed.

Lemma neg_involutive (a : f32) : F32.neg (F32.neg a) = a.
Proof. destruct a as [s | s | | s m e]; cbn; now rewrite ?negb_involutive. Qed.

(** C2. An accepted packet stores the motion sample with the fixed change
    of axes: accel (-x, y, -z) and gyro (-pitch, -yaw, roll); the sample
    accel (1,2,3), gyro (4,5,6) is stored as (-1,2,-3), (-4,-5,6). *)
Theorem OnPadData_axis_remap (data : Response.PadData) (c : Client) :
  packet_sequence c < Response.packet_counter data ->
  let a := Response.accel data in
  let g := Response.gyro data in
  let stored :=
    (MakeVec (F32.neg (Response.Accel.x a)) (Response.Accel.y a)
             (F32.neg (Response.Accel.z a)),
     MakeVec (F32.neg (Response.Gyro.pitch g)) (F32.neg (Response.Gyro.yaw g))
             (Response.Gyro.roll g)) in
  motion_status (status (fst (OnPadData data c))) = stored /\
  filter is_store (snd (OnPadData data c))
    = [StoreMotion stored; StoreTouch (touch_status (status (fst (OnPadData data c))))] /\
  (a = accel_123 -> g = gyro_456 ->
   motion_status (status (fst (OnPadData data c)))
     = (MakeVec (F32.of_int (-1)) (F32.of_int 2) (F32.of_int (-3)),
        MakeVec (F32.of_int (-4)) (F32.of_int (-5)) (F32.of_int 6))).
Proof.
  intros Hnew a g stored. rewrite (OnPadData_fresh _ _ Hnew).
  cbn [fst snd status motion_status touch_status filter is_store].
  repeat split. intros Ha Hg. fold a g. rewrite Ha, Hg. reflexivity.
Qed.

Lemma OnPadData_axis_remap_witness :
  packet_sequence (sample_client 0 None) < Response.packet_counter (sample_pad 1 0 0 0) /\
  motion_status (status (fst (OnPadData (sample_pad 1 0 0 0) (sample_client 0 None))))
    = (MakeVec (F32.of_int (-1)) (F32.of_int 2) (F32.of_int (-3)),
       MakeVec (F32.of_int (-4)) (F32.of_int (-5)) (F32.of_int 6)).
Proof.
  split; [reflexivity |].
  apply (OnPadData_axis_remap (sample_pad 1 0 0 0) (sample_client 0 None));
    reflexivity.
Defined.

(** C10. The change of axes is an involution on motion samples, and it
    leaves accel.y and gyro.roll as they are. *)
Theorem axis_remap_involution (a : Response.Accel.t) (g : Response.Gyro.t) :
  as_accel (remap_accel (as_accel (remap_accel a))) = a /\
  as_gyro (remap_gyro (as_gyro (remap_gyro g))) = g /\
  vy (remap_accel a) = Response.Accel.y a /\
  vz (remap_gyro g) = Response.Gyro.roll g.
Proof.
  destruct a as [ax ay az], g as [gp gy gr].
  unfold remap_accel, remap_gyro, as_accel, as_gyro; cbn.
  now rewrite !neg_involutive.
Qed.

Lemma to_u16_id (z : Z) : is_u16 z -> to_u16 z = z.
Proof. unfold is_u16, to_u16. intros H. now apply Z.mod_small. Qed.

Lemma touch_of_active (k : CalibrationData) (t : Response.TouchPad.t) :
  Response.TouchPad.is_active t <> 0 ->
  touch_of (Some k) t =
    (normalize (Response.TouchPad.x t) (min_x k) (max_x k),
     normalize (Response.TouchPad.y t) (min_y k) (max_y k), true).
Proof.
  intros H. unfold touch_of. apply Z.eqb_neq in H. now rewrite H.
Qed.

Lemma touch_of_inactive (cal : option CalibrationData) (t : Response.TouchPad.t) :
  Response.TouchPad.is_active t = 0 ->
  touch_of cal t = (F32.zero, F32.zero, false).
Proof. intros H. unfold touch_of. now rewrite H. Qed.

Lemma touch_of_uncalibrated (t : Response.TouchPad.t) :
  touch_of None t = (F32.zero, F32.zero, negb (Response.TouchPad.is_active t =? 0)).
Proof. unfold touch_of. now destruct (negb _). Qed.

Lemma clamp_bounds (v lo hi : Z) : lo <= hi -> lo <= clamp v lo hi <= hi.
Proof.
  intros H. unfold clamp.
  destruct (Z.ltb_spec v lo); [lia |]. destruct (Z.ltb_spec hi v); lia.
Qed.

Lemma normalize_in_unit (v lo hi : Z) :
  is_u16 lo -> is_u16 hi -> lo < hi ->
  F32.in_unit (normalize v lo hi) = true /\
  F32.eqb (F32.of_int (hi - lo)) F32.zero = false /\
  F32.nearest_quotient (clamp (to_u16 v) lo hi - lo) (hi - lo) (normalize v lo hi).
Proof.
  unfold is_u16, u16_modulus. intros Hlo Hhi Hlt. unfold normalize.
  pose proof (clamp_bounds (to_u16 v) lo hi ltac:(lia)).
  apply div_of_int_spec; [lia |]. change (2 ^ 24) with 16777216. lia.
Qed.

(** C3. An accepted packet stores [is_active] as "touch_1.is_active is not
    zero"; when the touch is active and a calibration is present, a stored
    coordinate is (clamp(x, min_x, max_x) - min_x) / (max_x - min_x), and
    likewise for y, wherever the clamp is defined, that is for
    min_x <= max_x (for min_y <= max_y): the division is the one of single
    precision floats on the two integers, and for 16-bit bounds with
    min < max its result is a float nearest to the exact quotient; when the
    touch is inactive or there is no calibration the coordinates are
    (0, 0). *)
Theorem OnPadData_touch (data : Response.PadData) (c : Client) :
  Response.wf_PadData data ->
  packet_sequence c < Response.packet_counter data ->
  let t := Response.touch_1 data in
  let cal := touch_calibration (status c) in
  let stored := touch_status (status (fst (OnPadData data c))) in
  (snd stored = true <-> Response.TouchPad.is_active t <> 0) /\
  (forall k, Response.TouchPad.is_active t <> 0 -> cal = Some k ->
     let nx := clamp (Response.TouchPad.x t) (min_x k) (max_x k) - min_x k in
     let ny := clamp (Response.TouchPad.y t) (min_y k) (max_y k) - min_y k in
     (min_x k <= max_x k ->
      min_x k <= clamp (Response.TouchPad.x t) (min_x k) (max_x k) <= max_x k /\
      fst (fst stored) = F32.div (F32.of_int nx) (F32.of_int (max_x k - min_x k))) /\
     (min_y k <= max_y k ->
      min_y k <= clamp (Response.TouchPad.y t) (min_y k) (max_y k) <= max_y k /\
      snd (fst stored) = F32.div (F32.of_int ny) (F32.of_int (max_y k - min_y k))) /\
     (wf_CalibrationData k -> min_x k < max_x k ->
      F32.nearest_quotient nx (max_x k - min_x k) (fst (fst stored))) /\
     (wf_CalibrationData k -> min_y k < max_y k ->
      F32.nearest_quotient ny (max_y k - min_y k) (snd (fst stored)))) /\
  (Response.TouchPad.is_active t = 0 \/ cal = None ->
     fst stored = (F32.zero, F32.zero)).
Proof.
  intros (_ & _ & Hx & Hy) Hnew t cal stored.
  unfold stored. rewrite (OnPadData_fresh _ _ Hnew).
  cbn [fst snd status touch_status]. fold t cal.
  split; [| split].
  - unfold touch_of. destruct (Z.eqb_spec (Response.TouchPad.is_active t) 0) as [E | E];
      destruct cal; cbn; split; intros; try discriminate; try contradiction; auto.
  - intros k Hact Hk. rewrite Hk, (touch_of_active _ _ Hact). cbn [fst snd].
    fold t in Hx, Hy.
    pose proof (normalize_in_unit (Response.TouchPad.x t) (min_x k) (max_x k)) as Nx.
    pose proof (normalize_in_unit (Response.TouchPad.y t) (min_y k) (max_y k)) as Ny.
    unfold normalize in *. rewrite (to_u16_id _ Hx) in *. rewrite (to_u16_id _ Hy) in *.
    split; [| split; [| split]].
    + intros Hle. split; [now apply clamp_bounds | reflexivity].
    + intros Hle. split; [now apply clamp_bounds | reflexivity].
    + intros (Hx0 & _ & Hx1 & _) Hlt. apply (Nx Hx0 Hx1 Hlt).
    + intros (_ & Hy0 & _ & Hy1) Hlt. apply (Ny Hy0 Hy1 Hlt).
  - intros [H0 | Hnone].
    + now rewrite (touch_of_inactive _ _ H0).
    + rewrite Hnone, touch_of_uncalibrated. reflexivity.
Qed.

Lemma OnPadData_touch_witness :
  Response.wf_PadData (sample_pad 1 1 250 0) /\
  packet_sequence (sample_client 0 (Some sample_calibration))
    < Response.packet_counter (sample_pad 1 1 250 0) /\
  (snd (touch_status (status (fst (OnPadData (sample_pad 1 1 250 0)
                                      (sample_client 0 (Some sample_calibration))))))
     = true
   <-> Response.TouchPad.is_active (Response.touch_1 (sample_pad 1 1 250 0)) <> 0).
Proof.
  assert (Hwf : Response.wf_PadData (sample_pad 1 1 250 0)).
  { unfold Response.wf_PadData, is_u32, is_u16, is_u8, u32_modulus, u16_modulus; cbn; lia. }
  assert (Hnew : packet_sequence (sample_client 0 (Some sample_calibration))
                 < Response.packet_counter (sample_pad 1 1 250 0)) by reflexivity.
  split; [exact Hwf | split; [exact Hnew |]].
  exact (proj1 (OnPadData_touch (sample_pad 1 1 250 0)
                  (sample_client 0 (Some sample_calibration)) Hwf Hnew)).
Defined.

(** The worked examples of the specification: a touch beyond the
    calibrated range is stored as (1.0, 0.0, true); an inactive touch as
    (0, 0, false); an active touch without calibration as (0, 0, true). *)
Lemma touch_examples :
  touch_of (Some sample_calibration) (sample_touch 1 250 0)
    = (F32.one, F32.zero, true) /\
  touch_of (Some sample_calibration) (sample_touch 0 250 77)
    = (F32.zero, F32.zero, false) /\
  touch_of None (sample_touch 1 250 77) = (F32.zero, F32.zero, true).
Proof. repeat split; vm_compute; reflexivity. Qed.

(** C8, as the code has it.  For an accepted packet, when the calibration
    (if there is one) holds 16-bit bounds with min_x < max_x and
    min_y < max_y, both stored touch coordinates lie between 0 and 1, and
    the two divisors max_x - min_x and max_y - min_y are not zero; for an
    inactive touch or without a calibration the coordinates are (0, 0). *)
Theorem OnPadData_touch_in_unit_square (data : Response.PadData) (c : Client) :
  (forall k, touch_calibration (status c) = Some k ->
             wf_CalibrationData k /\ min_x k < max_x k /\ min_y k < max_y k) ->
  packet_sequence c < Response.packet_counter data ->
  let stored := touch_status (status (fst (OnPadData data c))) in
  F32.in_unit (fst (fst stored)) = true /\
  F32.in_unit (snd (fst stored)) = true /\
  (forall k, touch_calibration (status c) = Some k ->
             F32.eqb (F32.of_int (max_x k - min_x k)) F32.zero = false /\
             F32.eqb (F32.of_int (max_y k - min_y k)) F32.zero = false) /\
  (Response.TouchPad.is_active (Response.touch_1 data) = 0 \/
   touch_calibration (status c) = None ->
   fst stored = (F32.zero, F32.zero)).
Proof.
  intros Hcal Hnew stored. unfold stored. rewrite (OnPadData_fresh _ _ Hnew).
  cbn [fst snd status touch_status].
  assert (Hzero : Response.TouchPad.is_active (Response.touch_1 data) = 0 \/
                  touch_calibration (status c) = None ->
                  fst (touch_of (touch_calibration (status c)) (Response.touch_1 data))
                    = (F32.zero, F32.zero)).
  { intros [H0 | Hnone].
    - now rewrite (touch_of_inactive _ _ H0).
    - rewrite Hnone, touch_of_uncalibrated. reflexivity. }
  destruct (touch_calibration (status c)) as [k |] eqn:Ek.
  - destruct (Hcal k eq_refl) as ((Hx0 & Hy0 & Hx1 & Hy1) & Hx & Hy).
    pose proof (fun v => normalize_in_unit v _ _ Hx0 Hx1 Hx) as Nx.
    pose proof (fun v => normalize_in_unit v _ _ Hy0 Hy1 Hy) as Ny.
    split; [| split; [| split; [| exact Hzero]]].
    + unfold touch_of. destruct (negb _); cbn [fst snd]; [apply Nx | reflexivity].
    + unfold touch_of. destruct (negb _); cbn [fst snd]; [apply Ny | reflexivity].
    + intros k' Hk'. inversion Hk'; subst k'. split; [apply (Nx 0) | apply (Ny 0)].
  - split; [| split; [| split; [| exact Hzero]]].
    + rewrite touch_of_uncalibrated. reflexivity.
    + rewrite touch_of_uncalibrated. reflexivity.
    + discriminate.
Qed.

Lemma OnPadData_touch_in_unit_square_witness :
  (forall k, touch_calibration (status (sample_client 0 (Some sample_calibration))) = Some k ->
             wf_CalibrationData k /\ min_x k < max_x k /\ min_y k < max_y k) /\
  packet_sequence (sample_client 0 (Some sample_calibration))
    < Response.packet_counter (sample_pad 1 1 250 0) /\
  F32.in_unit
    (fst (fst (touch_status (status (fst (OnPadData (sample_pad 1 1 250 0)
                                            (sample_client 0 (Some sample_calibration)))))))) = true.
Proof.
  assert (Hcal : forall k,
             touch_calibration (status (sample_client 0 (Some sample_calibration))) = Some k ->
             wf_CalibrationData k /\ min_x k < max_x k /\ min_y k < max_y k).
  { intros k Hk. inversion Hk; subst k.
    unfold wf_CalibrationData, is_u16, u16_modulus; cbn; lia. }
  assert (Hnew : packet_sequence (sample_client 0 (Some sample_calibration))
                 < Response.packet_counter (sample_pad 1 1 250 0)) by reflexivity.
  split; [exact Hcal | split; [exact Hnew |]].
  exact (proj1 (OnPadData_touch_in_unit_square (sample_pad 1 1 250 0)
                  (sample_client 0 (Some sample_calibration)) Hcal Hnew)).
Defined.

(** C8, as the specification states it, fails: with the calibration
    min_x = max_x = 100 an active touch makes the x divisor zero, the stored
    x is 0/0, a NaN, and a NaN is not between 0 and 1. *)
Lemma degenerate_calibration_stores_nan :
  let c := sample_client 0 (Some degenerate_calibration) in
  let stored := touch_status (status (fst (OnPadData (sample_pad 1 1 100 60) c))) in
  packet_sequence c < Response.packet_counter (sample_pad 1 1 100 60) /\
  wf_CalibrationData degenerate_calibration /\
  F32.eqb (F32.of_int (max_x degenerate_calibration - min_x degenerate_calibration))
          F32.zero = true /\
  fst (fst stored) = F32.nan /\
  F32.in_unit (fst (fst stored)) = false.
Proof.
  cbn zeta. split; [reflexivity |]. split.
  - unfold wf_CalibrationData, is_u16, u16_modulus; cbn; lia.
  - vm_compute. repeat split.
Qed.

End ClientFacts.

(** * Properties of the network engine *)

Section EngineFacts.

  Variable MAX_PACKET_SIZE : nat.
  Variable Validate : bytes -> Z -> option Type_.t.
  Variable decode_Version : bytes -> Response.Version.
  Variable decode_PortInfo : bytes -> Response.PortInfo.
  Variable decode_PadData : bytes -> Response.PadData.
  Variable Create_PortInfo : Request.PortInfo -> Z -> bytes.
  Variable Create_PadData : Request.PadData -> Z -> bytes.
  Variable ticks_per_second : Z.

  Local Abbreviation HandleReceive' :=
    (HandleReceive Validate decode_Version decode_PortInfo decode_PadData).
  Local Abbreviation HandleSend' :=
    (HandleSend Create_PortInfo Create_PadData ticks_per_second).
  Local Abbreviation dispatch' :=
    (dispatch MAX_PACKET_SIZE Validate decode_Version decode_PortInfo decode_PadData
              Create_PortInfo Create_PadData ticks_per_second).
  Local Abbreviation Loop' :=
    (Loop MAX_PACKET_SIZE Validate decode_Version decode_PortInfo decode_PadData
          Create_PortInfo Create_PadData ticks_per_second).
  Local Abbreviation SocketLoop' :=
    (SocketLoop MAX_PACKET_SIZE Validate decode_Version decode_PortInfo decode_PadData
                Create_PortInfo Create_PadData ticks_per_second).
  Local Abbreviation sec := (seconds ticks_per_second).
  Local Abbreviation realise' := (realise ticks_per_second).

(** What [HandleReceive] does, by the answer of [Validate]. *)
Lemma HandleReceive_unfold (error : error_code) (n : Z) (w : World) :
  HandleReceive' error n w =
    let s := socket w in
    let '(c, j) :=
      match Validate (receive_buffer s) n with
      | Some Type_.Version => version (callback s) (decode_Version (receive_buffer s)) (client w)
      | Some Type_.PortInfo => port_info (callback s) (decode_PortInfo (receive_buffer s)) (client w)
      | Some Type_.PadData => pad_data (callback s) (decode_PadData (receive_buffer s)) (client w)
      | Some (Type_.Other _) | None => (client w, [])
      end in
    (Normal tt, {| socket := async_receive_from s; client := c; journal := journal w ++ j |}).
Proof.
  unfold HandleReceive, bind, get_socket, StartReceive, modify_socket, invoke, ret.
  cbn zeta.
  destruct (Validate (receive_buffer (socket w)) n) as [[| | | tag] |]; cbn.
  - destruct (version _ _ _); reflexivity.
  - destruct (port_info _ _ _); reflexivity.
  - destruct (pad_data _ _ _); reflexivity.
  - now rewrite app_nil_r.
  - now rewrite app_nil_r.
Qed.

(** C5. [HandleReceive] never raises and always ends by arming the next
    receive, whatever [Validate] answered; for a datagram that fails
    validation or carries a type tag outside the three known ones no
    callback runs: the client (counter and shared status) and the journal
    are as before, only the new receive is outstanding. *)
Theorem HandleReceive_rearms_and_drops_invalid (error : error_code) (n : Z) (w : World) :
  exists w',
    HandleReceive' error n w = (Normal tt, w') /\
    receive_waits (socket w') = S (receive_waits (socket w)) /\
    ((Validate (receive_buffer (socket w)) n = None \/
      exists tag, Validate (receive_buffer (socket w)) n = Some (Type_.Other tag)) ->
     w' = {| socket := async_receive_from (socket w);
             client := client w; journal := journal w |}).
Proof.
  rewrite HandleReceive_unfold. cbn zeta.
  destruct (Validate (receive_buffer (socket w)) n) as [[| | | tag] |] eqn:EV.
  - destruct (version _ _ _) as [c j]. eexists. split; [reflexivity |]. split; [reflexivity |].
    intros [H | [t H]]; discriminate.
  - destruct (port_info _ _ _) as [c j]. eexists. split; [reflexivity |]. split; [reflexivity |].
    intros [H | [t H]]; discriminate.
  - destruct (pad_data _ _ _) as [c j]. eexists. split; [reflexivity |]. split; [reflexivity |].
    intros [H | [t H]]; discriminate.
  - eexists. split; [reflexivity |]. split; [reflexivity |]. intros _. now rewrite app_nil_r.
  - eexists. split; [reflexivity |]. split; [reflexivity |]. intros _. now rewrite app_nil_r.
Qed.

(** The socket after the two requests of a tick were handed to [send_to]. *)
Lemma HandleSend_unfold (error : error_code) (r1 r2 : send_result) (w : World) :
  HandleSend' error r1 r2 w =
    let s := socket w in
    let m1 := Create_PortInfo port_info_request (client_id s) in
    let m2 := Create_PadData pad_data_request (client_id s) in
    let c1 := {| sent_data := m1; sent_to := send_endpoint s; sent_result := r1 |} in
    let c2 := {| sent_data := m2; sent_to := send_endpoint s; sent_result := r2 |} in
    let s1 := push_wire c1 (set_send_buffer1 m1 s) in
    let s2 := push_wire c2 (set_send_buffer2 m2 s1) in
    match r1, r2 with
    | SendFail e, _ =>
        (Raised e, {| socket := s1; client := client w; journal := journal w |})
    | SendOk _, SendFail e =>
        (Raised e, {| socket := s2; client := client w; journal := journal w |})
    | SendOk _, SendOk _ =>
        (Normal tt,
         {| socket := async_wait (expires_at (timer_expiry s + sec 3) s2);
            client := client w; journal := journal w |})
    end.
Proof.
  unfold HandleSend, StartSend, send_to, bind, get_socket, modify_socket, ret, raise.
  destruct r1 as [l1 | e1]; [destruct r2 as [l2 | e2] |]; reflexivity.
Qed.

(** A heartbeat expiry whose first send returns hands exactly two
    requests to the socket, both addressed to the peer endpoint and both
    built with the client identifier of the socket: first the port-info
    query for one pad (pad_count 1, port ids 0), then the pad-data
    subscription with flag Id, port id 0 (the first pad) and the all-zero
    MAC address.  Identifier and endpoint are left as the constructor set
    them. *)
Theorem HandleSend_sends_two_fixed_requests
    (error : error_code) (len1 : Z) (r2 : send_result) (w : World) :
  let s := socket w in
  let w' := snd (HandleSend' error (SendOk len1) r2 w) in
  wire (socket w') =
    wire s ++
    [ {| sent_data :=
           Create_PortInfo {| Request.pad_count := 1; Request.port := [0; 0; 0; 0] |}
                           (client_id s);
         sent_to := send_endpoint s;
         sent_result := SendOk len1 |};
      {| sent_data :=
           Create_PadData {| Request.flags := Request.Id; Request.port_id := 0;
                             Request.mac := [0; 0; 0; 0; 0; 0] |}
                          (client_id s);
         sent_to := send_endpoint s;
         sent_result := r2 |} ] /\
  client_id (socket w') = client_id s /\
  send_endpoint (socket w') = send_endpoint s.
Proof.
  cbn zeta. rewrite HandleSend_unfold. cbn zeta.
  destruct r2 as [l2 | e2]; cbn; rewrite <- app_assoc; repeat split.
Qed.

Lemma armed_has_work (T : time_point) (s : Socket) : armed T s -> has_work s = true.
Proof.
  intros (_ & Hw & _ & _). unfold has_work. rewrite Hw.
  destruct (receive_waits s); reflexivity.
Qed.

Lemma dispatch_Received (error : error_code) (data : bytes) (w : World) (T : time_point) :
  armed T (socket w) ->
  exists w', dispatch' (Received error data) w = (Normal tt, w') /\
             armed T (socket w') /\
             wire (socket w') = wire (socket w) /\
             client_id (socket w') = client_id (socket w) /\
             send_endpoint (socket w') = send_endpoint (socket w).
Proof.
  intros (HT & Hw & Hc & Hr).
  destruct error; unfold dispatch, bind, modify_socket, get_socket;
    rewrite HandleReceive_unfold; cbn zeta;
    match goal with |- context [match ?v with _ => _ end] =>
      destruct v as [[| | | tag] |] end;
    cbn [socket client journal];
    try match goal with |- context [version ?a ?b ?c] => destruct (version a b c) end;
    try match goal with |- context [port_info ?a ?b ?c] => destruct (port_info a b c) end;
    try match goal with |- context [pad_data ?a ?b ?c] => destruct (pad_data a b c) end;
    (eexists; split; [reflexivity |]; cbn; repeat split; auto; discriminate).
Qed.

Lemma dispatch_Expired_ok (now : time_point) (l1 l2 : Z) (w : World) (T : time_point) :
  armed T (socket w) ->
  exists w', dispatch' (Expired now (SendOk l1) (SendOk l2)) w = (Normal tt, w') /\
             armed (T + sec 3) (socket w') /\
             length (wire (socket w')) = (length (wire (socket w)) + 2)%nat /\
             client w' = client w /\ journal w' = journal w.
Proof.
  intros (HT & Hw & Hc & Hr).
  unfold dispatch, bind, modify_socket. rewrite HandleSend_unfold. cbn zeta.
  eexists; split; [reflexivity |]. cbn.
  rewrite !length_app. cbn. unfold armed; cbn. rewrite HT.
  repeat split; auto; lia.
Qed.

(** A schedule runs to its end and leaves the timer due three seconds
    after the deadline of its last tick. *)
Lemma Loop_realise (sched : list Arrival) :
  forall (T : time_point) (w : World) (evs : list IoEvent),
    armed (T + sec 3) (socket w) ->
    exists w',
      Loop' (realise' T sched ++ evs) w = Loop' evs w' /\
      armed (T + sec 3 * (1 + count_ticks sched)) (socket w').
Proof.
  induction sched as [| a sched IH]; intros T w evs Harmed.
  - exists w. split; [reflexivity |].
    cbn [count_ticks]. now replace (T + sec 3 * (1 + 0)) with (T + sec 3) by lia.
  - destruct a as [late l1 l2 | error data]; cbn [realise count_ticks app Loop].
    + rewrite (armed_has_work _ _ Harmed).
      assert (Hd : deliverable (Expired (T + sec 3 + Z.of_nat late) (SendOk l1) (SendOk l2))
                     (socket w) = true).
      { destruct Harmed as (HT & Hw & _). unfold deliverable. rewrite Hw, HT. cbn.
        apply Z.leb_le. lia. }
      rewrite Hd.
      destruct (dispatch_Expired_ok (T + sec 3 + Z.of_nat late) l1 l2 w _ Harmed)
        as (w1 & E1 & H1 & _).
      rewrite E1.
      destruct (IH (T + sec 3) w1 evs H1) as (w2 & E2 & H2).
      exists w2. split; [exact E2 |].
      now replace (T + sec 3 * (1 + (1 + count_ticks sched)))
        with (T + sec 3 + sec 3 * (1 + count_ticks sched)) by lia.
    + rewrite (armed_has_work _ _ Harmed).
      assert (Hd : deliverable (Received error data) (socket w) = true).
      { destruct Harmed as (_ & _ & _ & Hr). unfold deliverable.
        destruct (receive_waits (socket w)); [contradiction | reflexivity]. }
      rewrite Hd.
      destruct (dispatch_Received error data w _ Harmed) as (w1 & E1 & H1 & _).
      rewrite E1. exact (IH T w1 evs H1).
Qed.

Lemma SocketLoop_start (T0 : time_point) (evs : list IoEvent) (w : World) :
  timer_waits (socket w) = 0%nat -> timer_cancelled (socket w) = 0%nat ->
  exists w', SocketLoop' T0 evs w = Loop' evs w' /\ armed (T0 + sec 3) (socket w') /\
             wire (socket w') = wire (socket w) /\
             client w' = client w /\ journal w' = journal w.
Proof.
  intros Hw Hc.
  unfold SocketLoop, StartReceive, StartSend, bind, modify_socket.
  eexists; split; [reflexivity |]. unfold armed; cbn. rewrite Hw, Hc.
  repeat split; auto.
Qed.

Lemma dispatch_Expired_fail
    (now : time_point) (r1 r2 : send_result) (e : error_code) (w : World) (T : time_point) :
  armed T (socket w) ->
  first_failure r1 r2 = Some e ->
  exists w', dispatch' (Expired now r1 r2) w = (Raised e, w') /\
             timer_waits (socket w') = 0%nat /\
             timer_cancelled (socket w') = 0%nat /\
             timer_expiry (socket w') = T /\
             length (wire (socket w')) = (length (wire (socket w)) + attempts r1)%nat /\
             client w' = client w /\ journal w' = journal w.
Proof.
  intros (HT & Hw & Hc & Hr) Hfail.
  unfold dispatch, bind, modify_socket. rewrite HandleSend_unfold. cbn zeta.
  destruct r1 as [l1 | e1]; [destruct r2 as [l2 | e2] |]; cbn in Hfail;
    inversion Hfail; subst;
    (eexists; split; [reflexivity |]); cbn; rewrite ?length_app; cbn;
    rewrite Hw; repeat split; auto; lia.
Qed.

(** What a tick does, by the answers to its sends.  Each request of a tick is handed to [send_to]
    once and never again within the tick, and the handler logs nothing.
    When both sends return, the handler returns, with the timer re-armed
    three seconds after its previous expiry.  When a send fails, its
    exception leaves the handler: what remained of the tick, re-arming the
    timer included, is skipped, and in a run of the engine the exception
    leaves the event loop, whatever completions were still to come. *)
Theorem heartbeat_send_failure_is_not_absorbed :
  (forall (error : error_code) (r1 r2 : send_result) (w : World),
     let res := fst (HandleSend' error r1 r2 w) in
     let w' := snd (HandleSend' error r1 r2 w) in
     journal w' = journal w /\ client w' = client w /\
     length (wire (socket w')) = (length (wire (socket w)) + attempts r1)%nat /\
     match first_failure r1 r2 with
     | None =>
         res = Normal tt /\
         timer_waits (socket w') = 1%nat /\
         timer_expiry (socket w') = timer_expiry (socket w) + sec 3
     | Some e =>
         res = Raised e /\
         timer_waits (socket w') = timer_waits (socket w) /\
         timer_expiry (socket w') = timer_expiry (socket w)
     end) /\
  (forall (st : DeviceStatus) (host : string) (port id : Z) (T0 : time_point)
          (sched : list Arrival) (late : nat) (r1 r2 : send_result) (e : error_code)
          (evs : list IoEvent),
     first_failure r1 r2 = Some e ->
     let due := T0 + sec 3 * (1 + count_ticks sched) in
     let run := SocketLoop' T0 (realise' T0 sched ++ Expired (due + Z.of_nat late) r1 r2 :: evs)
                  (Client_new MAX_PACKET_SIZE st host port id) in
     fst run = Uncaught e /\ timer_waits (socket (snd run)) = 0%nat).
Proof.
  split.
  - intros error r1 r2 w. cbn zeta. rewrite HandleSend_unfold. cbn zeta.
    destruct r1 as [l1 | e1]; [destruct r2 as [l2 | e2] |]; cbn;
      rewrite ?length_app; cbn; repeat split; auto; lia.
  - intros st host port id T0 sched late r1 r2 e evs Hfail. cbn zeta.
    destruct (SocketLoop_start T0
                (realise' T0 sched
                   ++ Expired (T0 + sec 3 * (1 + count_ticks sched) + Z.of_nat late) r1 r2 :: evs)
                (Client_new MAX_PACKET_SIZE st host port id) eq_refl eq_refl)
      as (w1 & E1 & H1 & _).
    rewrite E1.
    destruct (Loop_realise sched T0 w1
                (Expired (T0 + sec 3 * (1 + count_ticks sched) + Z.of_nat late) r1 r2 :: evs) H1)
      as (w2 & E2 & H2).
    rewrite E2. cbn [Loop]. rewrite (armed_has_work _ _ H2).
    assert (Hd : deliverable
                   (Expired (T0 + sec 3 * (1 + count_ticks sched) + Z.of_nat late) r1 r2)
                   (socket w2) = true).
    { destruct H2 as (HT & Hw & _). unfold deliverable. rewrite Hw, HT. cbn.
      apply Z.leb_le. lia. }
    rewrite Hd.
    destruct (dispatch_Expired_fail
                (T0 + sec 3 * (1 + count_ticks sched) + Z.of_nat late) r1 r2 e w2 _ H2 Hfail)
      as (w3 & E3 & Hw3 & _).
    rewrite E3. cbn [fst snd]. split; [reflexivity | exact Hw3].
Qed.

End EngineFacts.

(** * The engine on concrete input *)

(** C4, as the specification states it, fails: a first send that fails at
    the heartbeat due at 3 s ends the event loop with the exception of
    [send_to]; nothing was logged beyond the start-up line, no wait is left
    on the timer, the second request and the heartbeat due at 6 s were never
    sent, and the datagram that followed was never handled. *)
Lemma failed_heartbeat_send_ends_the_loop :
  let run :=
    toy_SocketLoop 0
      [Expired 3000 (SendFail (system_error 101)) (SendOk 12);
       Expired 6000 (SendOk 7) (SendOk 12);
       Received success [Byte.x02; Byte.x05]]
      toy_world in
  fst run = Uncaught (system_error 101) /\
  journal (snd run) = journal toy_world /\
  timer_waits (socket (snd run)) = 0%nat /\
  length (wire (socket (snd run))) = 1%nat /\
  packet_sequence (client (snd run)) = 0.
Proof. vm_compute. repeat split. Qed.

(** The same run with sends that succeed keeps going: both heartbeats send
    their two requests, the timer is due at 9 s, and after a malformed
    datagram and one with an unknown tag the receive is still armed: the
    packet with counter 6 that follows is accepted, its duplicate dropped. *)
Lemma successful_heartbeats_keep_running :
  let run :=
    toy_SocketLoop 0
      [Expired 3000 (SendOk 7) (SendOk 12);
       Expired 6001 (SendOk 7) (SendOk 12);
       Received success [Byte.x02; Byte.x05];
       Received success [Byte.x09];
       Received success [Byte.x03; Byte.x07];
       Received success [Byte.x02; Byte.x06];
       Received success [Byte.x02; Byte.x06]]
      toy_world in
  fst run = Waiting /\
  timer_expiry (socket (snd run)) = 9000 /\
  length (wire (socket (snd run))) = 4%nat /\
  receive_waits (socket (snd run)) = 1%nat /\
  packet_sequence (client (snd run)) = 6 /\
  length (filter is_store (journal (snd run))) = 4%nat.
Proof. vm_compute. repeat split. Qed.

(** * Runs of PadData packets *)

Section PacketRuns.

Lemma feed_cons (d : Response.PadData) (ds : list Response.PadData) (c : Client) :
  feed (d :: ds) c =
    (fst (feed ds (fst (OnPadData d c))),
     snd (OnPadData d c) ++ snd (feed ds (fst (OnPadData d c)))).
Proof.
  cbn [feed]. destruct (OnPadData d c) as [c1 j1]. cbn [fst snd].
  destruct (feed ds c1) as [c2 j2]. reflexivity.
Qed.

Lemma fold_max_In (l : list Z) (s a : Z) : In a l -> a <= fold_left Z.max l s.
Proof.
  revert s. induction l as [| b l IH]; intros s; cbn [In fold_left]; [tauto |].
  intros [-> | Hin]; [| now apply IH].
  etransitivity; [| apply fold_max_ge]. lia.
Qed.

(** The counter after any run of packets is the largest of its initial
    value and of all the counters received: it never decreases, and no
    packet of the run has a counter above it. *)
Theorem packet_sequence_is_running_maximum (ds : list Response.PadData) (c : Client) :
  packet_sequence (fst (feed ds c))
    = fold_left Z.max (map Response.packet_counter ds) (packet_sequence c) /\
  packet_sequence c <= packet_sequence (fst (feed ds c)) /\
  Forall (fun d => Response.packet_counter d <= packet_sequence (fst (feed ds c))) ds.
Proof.
  rewrite feed_packet_sequence. split; [reflexivity |]. split; [apply fold_max_ge |].
  apply Forall_forall. intros d Hd. apply fold_max_In. now apply in_map.
Qed.

(** The packets that a run does not accept can be taken out of it: the
    client at the end and the stores are those of the accepted packets
    alone, two stores for each of them. *)
Theorem stale_packets_can_be_erased (ds : list Response.PadData) (c : Client) :
  fst (feed ds c) = fst (feed (newer (packet_sequence c) ds) c) /\
  filter is_store (snd (feed ds c))
    = filter is_store (snd (feed (newer (packet_sequence c) ds) c)) /\
  length (filter is_store (snd (feed ds c)))
    = (2 * length (newer (packet_sequence c) ds))%nat.
Proof.
  revert c. induction ds as [| d ds IH]; intros c; [repeat split |].
  rewrite feed_cons. cbn [newer fst snd].
  destruct (Z.leb_spec (Response.packet_counter d) (packet_sequence c)) as [Hle | Hgt].
  - rewrite (OnPadData_stale _ _ Hle). cbn [fst snd app filter is_store].
    apply IH.
  - rewrite feed_cons. rewrite (OnPadData_fresh _ _ Hgt). cbn zeta. cbn [fst snd].
    match goal with |- context [feed ds ?c1] => specialize (IH c1) end.
    cbn [packet_sequence] in IH. destruct IH as (IH1 & IH2 & IH3).
    cbn [app filter is_store length].
    rewrite IH1, IH2. repeat split. rewrite <- IH2, IH3. lia.
Qed.

(** No run of packets changes the calibration of the shared status. *)
Lemma feed_keeps_calibration (ds : list Response.PadData) (c : Client) :
  touch_calibration (status (fst (feed ds c))) = touch_calibration (status c).
Proof.
  revert c. induction ds as [| d ds IH]; intros c; [reflexivity |].
  rewrite feed_cons. cbn [fst]. rewrite IH.
  destruct (Z.le_gt_cases (Response.packet_counter d) (packet_sequence c)) as [Hle | Hgt].
  - now rewrite (OnPadData_stale _ _ Hle).
  - now rewrite (OnPadData_fresh _ _ Hgt).
Qed.

(** The journal of a run, its log lines apart, is one critical section per
    accepted packet, in order: the mutex is taken, the motion and the touch
    of that packet are stored, the mutex is released.  So the mutex is
    never taken twice, no store happens without it, and it is free at the
    end. *)
Theorem journal_is_critical_sections (ds : list Response.PadData) (c : Client) :
  filter (fun e => negb (is_log e)) (snd (feed ds c))
    = flat_map (critical_section (touch_calibration (status c)))
               (newer (packet_sequence c) ds) /\
  well_locked false (snd (feed ds c)) = true.
Proof.
  revert c. induction ds as [| d ds IH]; intros c; [split; reflexivity |].
  rewrite feed_cons. cbn [newer fst snd].
  destruct (Z.leb_spec (Response.packet_counter d) (packet_sequence c)) as [Hle | Hgt].
  - rewrite (OnPadData_stale _ _ Hle). cbn [fst snd app filter is_log negb well_locked].
    apply IH.
  - rewrite (OnPadData_fresh _ _ Hgt). cbn zeta. cbn [fst snd].
    match goal with |- context [feed ds ?c1] => specialize (IH c1) end.
    cbn [packet_sequence status touch_calibration] in IH. destruct IH as (IH1 & IH2).
    cbn [app filter is_log negb well_locked andb flat_map critical_section].
    rewrite IH1, IH2. split; reflexivity.
Qed.

Lemma feed_newer_fst (ds : list Response.PadData) (c : Client) :
  fst (feed ds c) = fst (feed (newer (packet_sequence c) ds) c).
Proof.
  revert c. induction ds as [| d ds IH]; intros c; [reflexivity |].
  rewrite feed_cons. cbn [newer fst].
  destruct (Z.leb_spec (Response.packet_counter d) (packet_sequence c)) as [Hle | Hgt].
  - rewrite (OnPadData_stale _ _ Hle). cbn [fst]. apply IH.
  - rewrite feed_cons. rewrite (OnPadData_fresh _ _ Hgt). cbn zeta. cbn [fst].
    rewrite IH. reflexivity.
Qed.

Lemma feed_app_fst (l1 l2 : list Response.PadData) (c : Client) :
  fst (feed (l1 ++ l2) c) = fst (feed l2 (fst (feed l1 c))).
Proof.
  revert c. induction l1 as [| d l1 IH]; intros c; [reflexivity |].
  cbn [app]. rewrite !feed_cons. cbn [fst]. apply IH.
Qed.

Lemma newer_last (ds : list Response.PadData) :
  forall (s : Z) (pre : list Response.PadData) (d : Response.PadData),
    newer s ds = pre ++ [d] ->
    s < Response.packet_counter d /\
    Forall (fun p => Response.packet_counter p < Response.packet_counter d) pre.
Proof.
  induction ds as [| d0 ds IH]; intros s pre d H; cbn [newer] in H.
  - destruct pre; discriminate.
  - destruct (Z.leb_spec (Response.packet_counter d0) s) as [Hle | Hgt].
    + now apply IH.
    + destruct pre as [| p pre]; cbn [app] in H; injection H as Hd Hrest.
      * subst d0. split; [lia | constructor].
      * subst d0. destruct (IH _ _ _ Hrest) as [H3 H4]. split; [lia |].
        constructor; [exact H3 | exact H4].
Qed.

Lemma fold_max_lt (l : list Z) (s b : Z) :
  s < b -> Forall (fun a => a < b) l -> fold_left Z.max l s < b.
Proof.
  revert s. induction l as [| a l IH]; intros s Hs Hl; cbn [fold_left]; [exact Hs |].
  inversion Hl; subst. apply IH; [lia | assumption].
Qed.

(** After any run the shared status is the one written for the last
    accepted packet: its motion and its touch come from that one packet,
    and the counter is that packet's; when no packet of the run is accepted
    the client is as it was. *)
Theorem last_accepted_packet_wins (ds : list Response.PadData) (c : Client) :
  (newer (packet_sequence c) ds = [] -> fst (feed ds c) = c) /\
  (forall pre d,
     newer (packet_sequence c) ds = pre ++ [d] ->
     fst (feed ds c) =
       {| packet_sequence := Response.packet_counter d;
          status :=
            {| motion_status := (remap_accel (Response.accel d),
                                 remap_gyro (Response.gyro d));
               touch_status := touch_of (touch_calibration (status c))
                                        (Response.touch_1 d);
               touch_calibration := touch_calibration (status c) |} |}).
Proof.
  rewrite feed_newer_fst. split.
  - intros ->. reflexivity.
  - intros pre d H. rewrite H, feed_app_fst.
    destruct (newer_last _ _ _ _ H) as [Hs Hpre].
    assert (Hseq : packet_sequence (fst (feed pre c)) < Response.packet_counter d).
    { rewrite feed_packet_sequence. apply fold_max_lt; [exact Hs |].
      now apply Forall_map. }
    rewrite feed_cons. cbn [feed fst].
    rewrite (OnPadData_fresh _ _ Hseq). cbn zeta. cbn [fst].
    now rewrite feed_keeps_calibration.
Qed.

(** The two ends of the counter.  The counter being 32 bits wide, a packet
    whose counter is 0 is never accepted, and once the counter has reached
    2^32 - 1 no packet is accepted any more: such runs store nothing and
    leave the client as it was. *)
Theorem counter_ends_accept_nothing (ds : list Response.PadData) (c : Client) :
  is_u32 (packet_sequence c) ->
  Forall Response.wf_PadData ds ->
  packet_sequence c = u32_modulus - 1 \/
  Forall (fun d => Response.packet_counter d = 0) ds ->
  fst (feed ds c) = c /\ filter is_store (snd (feed ds c)) = [].
Proof.
  intros Hc Hwf Hend.
  assert (Hstale : Forall (fun d => Response.packet_counter d <= packet_sequence c) ds).
  { apply Forall_forall. intros d Hd.
    destruct Hend as [Hmax | Hzero].
    - rewrite Forall_forall in Hwf. destruct (Hwf d Hd) as [Hu _].
      unfold is_u32 in Hu. lia.
    - rewrite Forall_forall in Hzero. rewrite (Hzero d Hd). unfold is_u32 in Hc. lia. }
  clear Hc Hwf Hend. induction ds as [| d ds IH]; [split; reflexivity |].
  inversion Hstale; subst. rewrite feed_cons, (OnPadData_stale _ _ H1).
  cbn [fst snd app filter is_store]. now apply IH.
Qed.

Lemma counter_ends_accept_nothing_witness :
  is_u32 (packet_sequence (sample_client 4294967295 None)) /\
  Forall Response.wf_PadData [sample_pad 0 1 250 0; sample_pad 4294967295 1 250 0] /\
  fst (feed [sample_pad 0 1 250 0; sample_pad 4294967295 1 250 0]
            (sample_client 4294967295 None))
    = sample_client 4294967295 None.
Proof.
  assert (Hc : is_u32 (packet_sequence (sample_client 4294967295 None))).
  { unfold is_u32, u32_modulus; cbn; lia. }
  assert (Hwf : Forall Response.wf_PadData
                  [sample_pad 0 1 250 0; sample_pad 4294967295 1 250 0]).
  { repeat constructor;
      unfold is_u32, is_u16, is_u8, u32_modulus, u16_modulus; cbn; lia. }
  split; [exact Hc | split; [exact Hwf |]].
  exact (proj1 (counter_ends_accept_nothing
                  [sample_pad 0 1 250 0; sample_pad 4294967295 1 250 0]
                  (sample_client 4294967295 None) Hc Hwf (or_introl eq_refl))).
Defined.

Lemma SFabs_SFopp (a : f32) : SFabs (F32.neg a) = SFabs a.
Proof. destruct a; reflexivity. Qed.

(** Whatever run of packets was accepted, the motion in the shared status
    differs from the motion of the last accepted packet in signs only: the
    magnitudes of the three components of accel and of gyro are the
    packet's, NaN and infinities included. *)
Theorem stored_motion_keeps_magnitudes
    (ds pre : list Response.PadData) (d : Response.PadData) (c : Client) :
  newer (packet_sequence c) ds = pre ++ [d] ->
  magnitudes (fst (motion_status (status (fst (feed ds c)))))
    = magnitudes (accel_vector (Response.accel d)) /\
  magnitudes (snd (motion_status (status (fst (feed ds c)))))
    = magnitudes (gyro_vector (Response.gyro d)).
Proof.
  intros H. rewrite feed_newer_fst, H, feed_app_fst.
  destruct (newer_last _ _ _ _ H) as [Hs Hpre].
  assert (Hseq : packet_sequence (fst (feed pre c)) < Response.packet_counter d).
  { rewrite feed_packet_sequence. apply fold_max_lt; [exact Hs |]. now apply Forall_map. }
  rewrite feed_cons. cbn [feed fst]. rewrite (OnPadData_fresh _ _ Hseq). cbn zeta.
  cbn [fst snd status motion_status].
  unfold magnitudes, remap_accel, remap_gyro, accel_vector, gyro_vector. cbn [vx vy vz].
  now rewrite !SFabs_SFopp.
Qed.

Lemma stored_motion_keeps_magnitudes_witness :
  newer (packet_sequence (sample_client 0 None))
        [sample_pad 3 0 0 0; sample_pad 2 0 0 0]
    = [] ++ [sample_pad 3 0 0 0] /\
  magnitudes (fst (motion_status (status (fst (feed [sample_pad 3 0 0 0; sample_pad 2 0 0 0]
                                                    (sample_client 0 None))))))
    = magnitudes (accel_vector (Response.accel (sample_pad 3 0 0 0))).
Proof.
  assert (H : newer (packet_sequence (sample_client 0 None))
                    [sample_pad 3 0 0 0; sample_pad 2 0 0 0]
              = [] ++ [sample_pad 3 0 0 0]) by reflexivity.
  split; [exact H |].
  exact (proj1 (stored_motion_keeps_magnitudes
                  [sample_pad 3 0 0 0; sample_pad 2 0 0 0] [] (sample_pad 3 0 0 0)
                  (sample_client 0 None) H)).
Defined.

End PacketRuns.

(** * The ends of the calibrated range *)

Section RangeEnds.

Lemma pow2_digits_24 (a : Z) (m : positive) :
  0 <= a -> Zpos m = 2 ^ a -> Zpos (digits2_pos m) = 24 -> a = 23.
Proof.
  intros Ha Hm Hd. pose proof (digits2_pos_bounds m) as [Hlo Hhi].
  rewrite Hd, Hm in *.
  apply Z.pow_le_mono_r_iff in Hlo; [| lia | lia].
  apply Z.pow_lt_mono_r_iff in Hhi; [| lia | lia]. lia.
Qed.

(** The quotient of two integers [0 <= n <= d] in single precision is
    [+0] only for [n = 0] and [1] only for [n = d]. *)
Lemma div_of_int_ends (n d : Z) :
  0 <= n <= d -> 0 < d < 2 ^ 24 ->
  (F32.div (F32.of_int n) (F32.of_int d) = F32.zero <-> n = 0) /\
  (F32.div (F32.of_int n) (F32.of_int d) = F32.one <-> n = d).
Proof.
  intros Hn Hd.
  destruct (div_of_int_spec n d Hn Hd) as (_ & _ & Hq).
  destruct (of_int_normal d Hd) as (my & Ey & _ & _).
  split; split.
  - intros E. rewrite E in Hq. exact Hq.
  - intros ->. rewrite Ey. reflexivity.
  - intros E. rewrite E in Hq.
    change F32.one with (S754_finite false F32.two23 (-23)) in Hq.
    cbn [F32.nearest_quotient] in Hq. destruct Hq as (_ & _ & Hacc).
    change (2 ^ (- -23)) with 8388608 in Hacc.
    change (Zpos F32.two23) with 8388608 in Hacc.
    change (2 ^ 24) with 16777216 in Hd. lia.
  - intros ->.
    destruct (F32.div (F32.of_int d) (F32.of_int d)) as [[] | [] | | [] m e];
      cbn [F32.nearest_quotient] in Hq; try contradiction; try lia.
    destruct Hq as (Hdig & He & Hacc).
    assert (Hm : Zpos m = 2 ^ (- e)).
    { assert (0 < 2 ^ (- e)) by (apply Z.pow_pos_nonneg; lia). nia. }
    assert (- e = 23) by (apply (pow2_digits_24 _ m); [lia | exact Hm | exact Hdig]).
    replace e with (-23) in * by lia.
    change (2 ^ (- -23)) with 8388608 in Hm.
    replace m with F32.two23 by (apply Pos2Z.inj; rewrite Hm; reflexivity).
    reflexivity.
Qed.

(** For an accepted packet with an active touch and a calibration of 16-bit
    bounds with min < max, a stored coordinate is exactly 0 if and only if
    the raw coordinate is at or below the minimum, and exactly 1 if and
    only if it is at or above the maximum. *)
Theorem touch_range_ends (data : Response.PadData) (c : Client) (k : CalibrationData) :
  Response.wf_PadData data ->
  packet_sequence c < Response.packet_counter data ->
  Response.TouchPad.is_active (Response.touch_1 data) <> 0 ->
  touch_calibration (status c) = Some k ->
  wf_CalibrationData k -> min_x k < max_x k -> min_y k < max_y k ->
  let t := Response.touch_1 data in
  let stored := touch_status (status (fst (OnPadData data c))) in
  (fst (fst stored) = F32.zero <-> Response.TouchPad.x t <= min_x k) /\
  (fst (fst stored) = F32.one <-> max_x k <= Response.TouchPad.x t) /\
  (snd (fst stored) = F32.zero <-> Response.TouchPad.y t <= min_y k) /\
  (snd (fst stored) = F32.one <-> max_y k <= Response.TouchPad.y t).
Proof.
  intros (_ & _ & Hx & Hy) Hnew Hact Hk (Hx0 & Hy0 & Hx1 & Hy1) Hltx Hlty t stored.
  unfold stored. rewrite (OnPadData_fresh _ _ Hnew). cbn [fst snd status touch_status].
  rewrite Hk, (touch_of_active _ _ Hact). cbn [fst snd]. fold t in Hx, Hy |- *.
  unfold normalize. rewrite (to_u16_id _ Hx), (to_u16_id _ Hy).
  unfold is_u16, u16_modulus in *.
  assert (Ends : forall v lo hi, 0 <= lo < 65536 -> 0 <= hi < 65536 -> lo < hi ->
            (F32.div (F32.of_int (clamp v lo hi - lo)) (F32.of_int (hi - lo)) = F32.zero
               <-> v <= lo) /\
            (F32.div (F32.of_int (clamp v lo hi - lo)) (F32.of_int (hi - lo)) = F32.one
               <-> hi <= v)).
  { intros v lo hi Hlo Hhi Hlt.
    pose proof (clamp_bounds v lo hi ltac:(lia)) as Hc.
    destruct (div_of_int_ends (clamp v lo hi - lo) (hi - lo)) as [Hz Ho];
      [lia | change (2 ^ 24) with 16777216; lia |].
    rewrite Hz, Ho. unfold clamp.
    destruct (Z.ltb_spec v lo); [lia |]. destruct (Z.ltb_spec hi v); lia. }
  destruct (Ends (Response.TouchPad.x t) _ _ Hx0 Hx1 Hltx) as [Ex0 Ex1].
  destruct (Ends (Response.TouchPad.y t) _ _ Hy0 Hy1 Hlty) as [Ey0 Ey1].
  repeat split; first [apply Ex0 | apply Ex1 | apply Ey0 | apply Ey1]; assumption.
Qed.

Lemma touch_range_ends_witness :
  Response.wf_PadData (sample_pad 1 1 250 0) /\
  packet_sequence (sample_client 0 (Some sample_calibration))
    < Response.packet_counter (sample_pad 1 1 250 0) /\
  (fst (fst (touch_status (status (fst (OnPadData (sample_pad 1 1 250 0)
                                         (sample_client 0 (Some sample_calibration)))))))
     = F32.one
   <-> max_x sample_calibration
         <= Response.TouchPad.x (Response.touch_1 (sample_pad 1 1 250 0))).
Proof.
  assert (Hwf : Response.wf_PadData (sample_pad 1 1 250 0)).
  { unfold Response.wf_PadData, is_u32, is_u16, is_u8, u32_modulus, u16_modulus; cbn; lia. }
  assert (Hnew : packet_sequence (sample_client 0 (Some sample_calibration))
                 < Response.packet_counter (sample_pad 1 1 250 0)) by reflexivity.
  assert (Hact : Response.TouchPad.is_active (Response.touch_1 (sample_pad 1 1 250 0)) <> 0)
    by discriminate.
  assert (Hcal : wf_CalibrationData sample_calibration).
  { unfold wf_CalibrationData, is_u16, u16_modulus; cbn; lia. }
  split; [exact Hwf | split; [exact Hnew |]].
  exact (proj1 (proj2 (touch_range_ends (sample_pad 1 1 250 0)
                         (sample_client 0 (Some sample_calibration)) sample_calibration
                         Hwf Hnew Hact eq_refl Hcal eq_refl eq_refl))).
Defined.

End RangeEnds.

(** * Runs of the engine *)

Section EngineRuns.

  Variable MAX_PACKET_SIZE : nat.
  Variable Validate : bytes -> Z -> option Type_.t.
  Variable decode_Version : bytes -> Response.Version.
  Variable decode_PortInfo : bytes -> Response.PortInfo.
  Variable decode_PadData : bytes -> Response.PadData.
  Variable Create_PortInfo : Request.PortInfo -> Z -> bytes.
  Variable Create_PadData : Request.PadData -> Z -> bytes.
  Variable ticks_per_second : Z.

  Local Abbreviation HandleReceive' :=
    (HandleReceive Validate decode_Version decode_PortInfo decode_PadData).
  Local Abbreviation HandleSend' :=
    (HandleSend Create_PortInfo Create_PadData ticks_per_second).
  Local Abbreviation dispatch' :=
    (dispatch MAX_PACKET_SIZE Validate decode_Version decode_PortInfo decode_PadData
              Create_PortInfo Create_PadData ticks_per_second).
  Local Abbreviation Loop' :=
    (Loop MAX_PACKET_SIZE Validate decode_Version decode_PortInfo decode_PadData
          Create_PortInfo Create_PadData ticks_per_second).
  Local Abbreviation SocketLoop' :=
    (SocketLoop MAX_PACKET_SIZE Validate decode_Version decode_PortInfo decode_PadData
                Create_PortInfo Create_PadData ticks_per_second).
  Local Abbreviation steady' := (steady MAX_PACKET_SIZE Create_PortInfo Create_PadData).
  Local Abbreviation fixed' := (fixed_request Create_PortInfo Create_PadData).

(** With the callbacks of [Client], a datagram runs the callback of its type
    and no other: one validated as Version or PortInfo adds its trace line
    and leaves the client as it was, one validated as PadData is handed,
    decoded, to [OnPadData], and any other changes neither client nor
    journal. *)
Theorem HandleReceive_runs_the_matching_callback
    (error : error_code) (n : Z) (w : World) :
  callback (socket w) = Client_callback ->
  let buf := receive_buffer (socket w) in
  let w' := snd (HandleReceive' error n w) in
  match Validate buf n with
  | Some Type_.Version =>
      client w' = client w /\
      journal w' = journal w ++ [Log (Trace_Version (Response.version (decode_Version buf)))]
  | Some Type_.PortInfo =>
      client w' = client w /\
      journal w' = journal w ++ [Log (Trace_PortInfo (Response.model (decode_PortInfo buf)))]
  | Some Type_.PadData =>
      client w' = fst (OnPadData (decode_PadData buf) (client w)) /\
      journal w' = journal w ++ snd (OnPadData (decode_PadData buf) (client w))
  | Some (Type_.Other _) | None =>
      client w' = client w /\ journal w' = journal w
  end.
Proof.
  intros Hcb. cbn zeta. rewrite HandleReceive_unfold. cbn zeta. rewrite Hcb.
  destruct (Validate (receive_buffer (socket w)) n) as [[| | | tag] |];
    cbn [version port_info pad_data Client_callback OnVersion OnPortInfo snd client journal].
  - split; reflexivity.
  - split; reflexivity.
  - destruct (OnPadData _ _) as [c j]. split; reflexivity.
  - split; [reflexivity | apply app_nil_r].
  - split; [reflexivity | apply app_nil_r].
Qed.

Lemma fill_length (buf datagram : bytes) :
  length buf = MAX_PACKET_SIZE -> length (fill MAX_PACKET_SIZE buf datagram) = MAX_PACKET_SIZE.
Proof.
  intros H. unfold fill. rewrite length_app, length_skipn, length_firstn. lia.
Qed.

Lemma OnPadData_kept (cal : option CalibrationData) (lo : Z)
    (d : Response.PadData) (c : Client) :
  kept cal lo c -> kept cal lo (fst (OnPadData d c)).
Proof.
  intros [Hcal Hlo]. unfold kept.
  destruct (Z.le_gt_cases (Response.packet_counter d) (packet_sequence c)) as [Hle | Hgt].
  - rewrite (OnPadData_stale _ _ Hle). now split.
  - rewrite (OnPadData_fresh _ _ Hgt). cbn. split; [exact Hcal | lia].
Qed.

Lemma dispatch_steady (id : Z) (peer : endpoint) (cal : option CalibrationData) (lo : Z)
    (ev : IoEvent) (w : World) :
  steady' id peer (socket w) -> kept cal lo (client w) ->
  deliverable ev (socket w) = true ->
  steady' id peer (socket (snd (dispatch' ev w))) /\
  kept cal lo (client (snd (dispatch' ev w))) /\
  (forall e, fst (dispatch' ev w) = Raised e ->
             exists now r1 r2, ev = Expired now r1 r2 /\ first_failure r1 r2 = Some e).
Proof.
  intros (Hcb & Hid & Hep & Hlen & Hrw & Htw & Htc & Hwire) Hkept Hdel.
  destruct ev as [error data | now r1 r2 | r1 r2 |].
  - (* a receive completes *)
    assert (Hrecv : forall (n : Z) (w0 : World),
              callback (socket w0) = Client_callback ->
              client w0 = client w ->
              fst (HandleReceive' error n w0) = Normal tt /\
              socket (snd (HandleReceive' error n w0)) = async_receive_from (socket w0) /\
              kept cal lo (client (snd (HandleReceive' error n w0)))).
    { intros n w0 Hcb0 Hc. rewrite HandleReceive_unfold. cbn zeta. rewrite Hcb0, Hc.
      destruct (Validate (receive_buffer (socket w0)) n) as [[| | | tag] |];
        cbn [version port_info pad_data Client_callback OnVersion OnPortInfo];
        try (cbn [fst snd socket client]; repeat split; auto; apply Hkept).
      pose proof (OnPadData_kept cal lo (decode_PadData (receive_buffer (socket w0)))
                    (client w) Hkept) as Hk.
      destruct (OnPadData _ _) as [c j]. cbn [fst snd socket client] in *.
      repeat split; auto; apply Hk. }
    destruct error; unfold dispatch, bind, modify_socket, get_socket;
      cbn [socket client journal];
      match goal with |- context [HandleReceive' _ ?n ?w0] =>
        destruct (Hrecv n w0) as (H1 & H2 & H3); [exact Hcb | reflexivity |]
      end;
      (split; [| split; [exact H3 | intros e He; rewrite H1 in He; discriminate]]);
      rewrite H2; unfold steady; cbn; rewrite Hrw; repeat split; auto.
    now apply fill_length.
  - (* the wait completes *)
    unfold deliverable in Hdel. apply andb_prop in Hdel as [Hw _].
    assert (Htw1 : timer_waits (socket w) = 1%nat).
    { destruct (timer_waits (socket w)) as [| [| k]]; [discriminate | reflexivity | lia]. }
    unfold dispatch, bind, modify_socket. rewrite HandleSend_unfold. cbn zeta.
    cbn [socket client journal take_wait client_id send_endpoint].
    set (c1 := {| sent_data := Create_PortInfo port_info_request (client_id (socket w));
                  sent_to := send_endpoint (socket w); sent_result := r1 |}).
    set (c2 := {| sent_data := Create_PadData pad_data_request (client_id (socket w));
                  sent_to := send_endpoint (socket w); sent_result := r2 |}).
    assert (F1 : fixed' id peer c1) by (unfold fixed_request, c1; cbn; rewrite Hid, Hep; auto).
    assert (F2 : fixed' id peer c2) by (unfold fixed_request, c2; cbn; rewrite Hid, Hep; auto).
    assert (W1 : Forall (fixed' id peer) (wire (socket w) ++ [c1]))
      by (apply Forall_app; split; [exact Hwire | constructor; [exact F1 | constructor]]).
    assert (W2 : Forall (fixed' id peer) ((wire (socket w) ++ [c1]) ++ [c2]))
      by (apply Forall_app; split; [exact W1 | constructor; [exact F2 | constructor]]).
    destruct r1 as [l1 | e1]; [destruct r2 as [l2 | e2] |];
      cbn [fst snd socket client]; (split; [| split; [exact Hkept |]]).
    + unfold steady; cbn. rewrite Htw1, Htc. repeat split; auto.
    + intros e He. discriminate.
    + unfold steady; cbn. rewrite Htw1. repeat split; auto.
    + intros e He. injection He as <-. exists now, (SendOk l1), (SendFail e2). split; reflexivity.
    + unfold steady; cbn. rewrite Htw1. repeat split; auto.
    + intros e He. injection He as <-. exists now, (SendFail e1), r2. split; reflexivity.
  - (* no wait was cancelled *)
    unfold deliverable in Hdel. rewrite Htc in Hdel. discriminate.
  - (* stop *)
    cbn. split; [| split; [exact Hkept |]].
    + unfold steady. repeat split; auto.
    + intros e He. discriminate.
Qed.

Lemma steady_has_work (id : Z) (peer : endpoint) (s : Socket) :
  steady' id peer s -> has_work s = true.
Proof. intros (_ & _ & _ & _ & Hrw & _). unfold has_work. now rewrite Hrw. Qed.

(** What holds of the loop at every exit, from a steady state on. *)
Lemma Loop_steady (id : Z) (peer : endpoint) (cal : option CalibrationData) (lo : Z)
    (evs : list IoEvent) :
  forall w : World,
    steady' id peer (socket w) -> kept cal lo (client w) ->
    steady' id peer (socket (snd (Loop' evs w))) /\
    kept cal lo (client (snd (Loop' evs w))) /\
    fst (Loop' evs w) <> OutOfWork /\
    (fst (Loop' evs w) = Stopped -> existsb is_stop evs = true) /\
    (forall e, fst (Loop' evs w) = Uncaught e ->
               exists now r1 r2, In (Expired now r1 r2) evs /\ first_failure r1 r2 = Some e).
Proof.
  induction evs as [| ev evs IH]; intros w Hs Hk; cbn [Loop];
    rewrite (steady_has_work _ _ _ Hs).
  - cbn [fst snd]. split; [exact Hs |]. split; [exact Hk |].
    split; [discriminate |]. split; intros; discriminate.
  - assert (Hstop : ev = StopRequested ->
              steady' id peer (socket w) /\ kept cal lo (client w) /\
              Stopped <> OutOfWork /\
              (Stopped = Stopped -> existsb is_stop (ev :: evs) = true) /\
              (forall e, Stopped = Uncaught e ->
                 exists now r1 r2, In (Expired now r1 r2) (ev :: evs)
                                   /\ first_failure r1 r2 = Some e)).
    { intros ->. split; [exact Hs |]. split; [exact Hk |]. split; [discriminate |].
      split; [reflexivity | intros; discriminate]. }
    destruct (deliverable ev (socket w)) eqn:Hd.
    + pose proof (dispatch_steady id peer cal lo ev w Hs Hk Hd) as (Hs1 & Hk1 & Hraise).
      destruct (dispatch' ev w) as [[[] | e] w1] eqn:Ed; cbn [fst snd] in *.
      * destruct (IH w1 Hs1 Hk1) as (I1 & I2 & I3 & I4 & I5).
        destruct ev; try (now apply Hstop);
          (split; [exact I1 |]; split; [exact I2 |]; split; [exact I3 |]; split;
           [intros H; cbn [existsb is_stop orb]; now apply I4
           | intros e He; destruct (I5 e He) as (now' & r1' & r2' & Hin & Hf);
             exists now', r1', r2'; split; [now right | exact Hf]]).
      * destruct (Hraise e eq_refl) as (now' & r1' & r2' & -> & Hf).
        cbn [fst snd]. split; [exact Hs1 |]. split; [exact Hk1 |].
        split; [discriminate |]. split; [discriminate |].
        intros e' He'. injection He' as <-. exists now', r1', r2'. split; [now left | exact Hf].
    + destruct ev; try (now apply Hstop); cbn [fst snd];
        (split; [exact Hs |]; split; [exact Hk |]; split; [discriminate |];
         split; intros; discriminate).
Qed.

Lemma SocketLoop_steady (st : DeviceStatus) (host : string) (port id : Z)
    (T0 : time_point) (evs : list IoEvent) :
  exists w1,
    SocketLoop' T0 evs (Client_new MAX_PACKET_SIZE st host port id) = Loop' evs w1 /\
    steady' id (host, port) (socket w1) /\
    kept (touch_calibration st) 0 (client w1).
Proof.
  unfold SocketLoop, StartReceive, StartSend, bind, modify_socket.
  eexists. split; [reflexivity |]. split.
  - unfold steady; cbn. rewrite repeat_length. repeat split; auto.
  - unfold kept; cbn. split; [reflexivity | lia].
Qed.

(** Whatever completions it is offered, the engine started on a fresh client
    keeps the identifier and the peer endpoint it was constructed with, and
    every [send_to] it ever issues goes to that peer with one of the two
    requests of a heartbeat, built with that identifier. *)
Theorem engine_sends_only_the_fixed_requests
    (st : DeviceStatus) (host : string) (port id : Z)
    (T0 : time_point) (evs : list IoEvent) :
  let w' := snd (SocketLoop' T0 evs (Client_new MAX_PACKET_SIZE st host port id)) in
  client_id (socket w') = id /\
  send_endpoint (socket w') = (host, port) /\
  Forall (fun c => sent_to c = (host, port) /\
                   (sent_data c = Create_PortInfo port_info_request id \/
                    sent_data c = Create_PadData pad_data_request id))
         (wire (socket w')).
Proof.
  cbn zeta. destruct (SocketLoop_steady st host port id T0 evs) as (w1 & E & Hs & Hk).
  rewrite E. destruct (Loop_steady _ _ _ _ evs w1 Hs Hk) as ((_ & H1 & H2 & _ & _ & _ & _ & H3) & _).
  repeat split; auto.
Qed.

(** Whatever completions it is offered, the engine has exactly one receive
    outstanding on its one receive buffer, which keeps its capacity, at most
    one wait on the timer, never a cancelled one, and the callbacks of the
    client. *)
Theorem engine_outstanding_operations
    (st : DeviceStatus) (host : string) (port id : Z)
    (T0 : time_point) (evs : list IoEvent) :
  let w' := snd (SocketLoop' T0 evs (Client_new MAX_PACKET_SIZE st host port id)) in
  receive_waits (socket w') = 1%nat /\
  (timer_waits (socket w') <= 1)%nat /\
  timer_cancelled (socket w') = 0%nat /\
  length (receive_buffer (socket w')) = MAX_PACKET_SIZE /\
  callback (socket w') = Client_callback.
Proof.
  cbn zeta. destruct (SocketLoop_steady st host port id T0 evs) as (w1 & E & Hs & Hk).
  rewrite E.
  destruct (Loop_steady _ _ _ _ evs w1 Hs Hk) as ((H0 & _ & _ & H1 & H2 & H3 & H4 & _) & _).
  repeat split; auto.
Qed.

(** Whatever completions it is offered, the engine never changes the
    calibration of the shared status, and the packet counter of the client,
    which starts at 0, never becomes negative. *)
Theorem engine_keeps_the_calibration
    (st : DeviceStatus) (host : string) (port id : Z)
    (T0 : time_point) (evs : list IoEvent) :
  let w' := snd (SocketLoop' T0 evs (Client_new MAX_PACKET_SIZE st host port id)) in
  touch_calibration (status (client w')) = touch_calibration st /\
  0 <= packet_sequence (client w').
Proof.
  cbn zeta. destruct (SocketLoop_steady st host port id T0 evs) as (w1 & E & Hs & Hk).
  rewrite E. destruct (Loop_steady _ _ _ _ evs w1 Hs Hk) as (_ & H & _). exact H.
Qed.

(** How the thread of the engine can end.  It never runs out of work by
    itself; it stops only if a stop was requested; and an exception leaves
    it only when a send of some heartbeat failed, the exception being the
    error of that send. *)
Theorem engine_exits
    (st : DeviceStatus) (host : string) (port id : Z)
    (T0 : time_point) (evs : list IoEvent) :
  let exit := fst (SocketLoop' T0 evs (Client_new MAX_PACKET_SIZE st host port id)) in
  exit <> OutOfWork /\
  (exit = Stopped -> existsb is_stop evs = true) /\
  (forall e, exit = Uncaught e ->
             exists now r1 r2, In (Expired now r1 r2) evs /\ first_failure r1 r2 = Some e).
Proof.
  cbn zeta. destruct (SocketLoop_steady st host port id T0 evs) as (w1 & E & Hs & Hk).
  rewrite E. destruct (Loop_steady _ _ _ _ evs w1 Hs Hk) as (_ & _ & H). exact H.
Qed.

(** A receive that completes with an error is handled like a datagram of
    length 0 (the error code is not looked at): when the validator rejects
    every datagram of length 0, nothing changes, no callback runs, and the
    receive is armed again. *)
Theorem failed_receive_changes_nothing
    (error : error_code) (data : bytes) (w : World) :
  error <> success ->
  (forall b, Validate b 0 = None) ->
  receive_waits (socket w) <> 0%nat ->
  dispatch' (Received error data) w = (Normal tt, w).
Proof.
  intros Herr HV Hrw.
  destruct error; [contradiction | |];
    unfold dispatch, bind, modify_socket; rewrite HandleReceive_unfold; cbn zeta;
    cbn [socket client journal]; rewrite HV, app_nil_r;
    destruct w as [[cb cid ep b1 b2 rb te tw tc rw wr] c j]; cbn in *;
    (destruct rw; [contradiction | reflexivity]).
Qed.

End EngineRuns.

(** * Heartbeats on schedule *)

Section EngineSchedule.

  Variable MAX_PACKET_SIZE : nat.
  Variable Validate : bytes -> Z -> option Type_.t.
  Variable decode_Version : bytes -> Response.Version.
  Variable decode_PortInfo : bytes -> Response.PortInfo.
  Variable decode_PadData : bytes -> Response.PadData.
  Variable Create_PortInfo : Request.PortInfo -> Z -> bytes.
  Variable Create_PadData : Request.PadData -> Z -> bytes.
  Variable ticks_per_second : Z.

  Local Abbreviation dispatch' :=
    (dispatch MAX_PACKET_SIZE Validate decode_Version decode_PortInfo decode_PadData
              Create_PortInfo Create_PadData ticks_per_second).
  Local Abbreviation Loop' :=
    (Loop MAX_PACKET_SIZE Validate decode_Version decode_PortInfo decode_PadData
          Create_PortInfo Create_PadData ticks_per_second).
  Local Abbreviation SocketLoop' :=
    (SocketLoop MAX_PACKET_SIZE Validate decode_Version decode_PortInfo decode_PadData
                Create_PortInfo Create_PadData ticks_per_second).
  Local Abbreviation steady' := (steady MAX_PACKET_SIZE Create_PortInfo Create_PadData).
  Local Abbreviation sec := (seconds ticks_per_second).
  Local Abbreviation realise' := (realise ticks_per_second).

Lemma realise_app (s1 s2 : list Arrival) :
  forall T : time_point,
    realise' T (s1 ++ s2)
      = realise' T s1 ++ realise' (T + sec 3 * count_ticks s1) s2.
Proof.
  induction s1 as [| a s1 IH]; intros T; cbn [app realise count_ticks].
  - f_equal. unfold seconds. lia.
  - destruct a as [late l1 l2 | error data]; cbn [app]; rewrite IH; do 3 f_equal;
      unfold seconds; lia.
Qed.

(** A schedule runs to its end, whatever follows it, and sends two requests
    for each of its ticks. *)
Lemma Loop_realise_wire (sched : list Arrival) :
  forall (T : time_point) (w : World),
    armed (T + sec 3) (socket w) ->
    exists w',
      (forall evs, Loop' (realise' T sched ++ evs) w = Loop' evs w') /\
      armed (T + sec 3 * (1 + count_ticks sched)) (socket w') /\
      Z.of_nat (length (wire (socket w')))
        = Z.of_nat (length (wire (socket w))) + 2 * count_ticks sched.
Proof.
  induction sched as [| a sched IH]; intros T w Harmed.
  - exists w. split; [reflexivity |]. cbn [count_ticks].
    split; [now replace (T + sec 3 * (1 + 0)) with (T + sec 3) by lia | lia].
  - destruct a as [late l1 l2 | error data]; cbn [realise count_ticks app].
    + assert (Hd : deliverable (Expired (T + sec 3 + Z.of_nat late) (SendOk l1) (SendOk l2))
                     (socket w) = true).
      { destruct Harmed as (HT & Hw & _). unfold deliverable. rewrite Hw, HT. cbn.
        apply Z.leb_le. lia. }
      destruct (dispatch_Expired_ok MAX_PACKET_SIZE Validate
                  decode_Version decode_PortInfo decode_PadData
                  Create_PortInfo Create_PadData ticks_per_second
                  (T + sec 3 + Z.of_nat late) l1 l2 w _ Harmed)
        as (w1 & E1 & H1 & Hlen & _).
      destruct (IH (T + sec 3) w1 H1) as (w2 & E2 & H2 & Hlen2).
      exists w2. split; [| split].
      * intros evs. cbn [Loop]. rewrite (armed_has_work _ _ Harmed), Hd, E1. apply E2.
      * now replace (T + sec 3 * (1 + (1 + count_ticks sched)))
          with (T + sec 3 + sec 3 * (1 + count_ticks sched)) by lia.
      * rewrite Hlen2, Hlen. lia.
    + assert (Hd : deliverable (Received error data) (socket w) = true).
      { destruct Harmed as (_ & _ & _ & Hr). unfold deliverable.
        destruct (receive_waits (socket w)); [contradiction | reflexivity]. }
      destruct (dispatch_Received MAX_PACKET_SIZE Validate
                  decode_Version decode_PortInfo decode_PadData
                  Create_PortInfo Create_PadData ticks_per_second
                  error data w _ Harmed)
        as (w1 & E1 & H1 & Hwire & _).
      destruct (IH T w1 H1) as (w2 & E2 & H2 & Hlen2).
      exists w2. split; [| split; [exact H2 |]].
      * intros evs. cbn [Loop]. rewrite (armed_has_work _ _ Harmed), Hd, E1. apply E2.
      * rewrite Hlen2, Hwire. reflexivity.
Qed.

Lemma SocketLoop_armed (st : DeviceStatus) (host : string) (port id : Z) (T0 : time_point) :
  exists w1,
    (forall evs,
       SocketLoop' T0 evs (Client_new MAX_PACKET_SIZE st host port id) = Loop' evs w1) /\
    armed (T0 + sec 3) (socket w1) /\
    steady' id (host, port) (socket w1) /\
    kept (touch_calibration st) 0 (client w1) /\
    wire (socket w1) = [].
Proof.
  unfold SocketLoop, StartReceive, StartSend, bind, modify_socket.
  eexists. split; [intros evs; reflexivity |]. split; [| split; [| split]].
  - unfold armed; cbn. repeat split; auto.
  - unfold steady; cbn. rewrite repeat_length. repeat split; auto.
  - unfold kept; cbn. split; [reflexivity | lia].
  - reflexivity.
Qed.

Lemma tick_socket (s s' : Socket) :
  forall (c1 c2 : SendCall) (m1 m2 : bytes) (t : time_point),
    s' = async_wait (expires_at t (push_wire c2 (set_send_buffer2 m2
           (push_wire c1 (set_send_buffer1 m1 (take_wait s)))))) ->
    wire s' = (wire s ++ [c1]) ++ [c2] /\
    timer_expiry s' = t /\
    receive_waits s' = receive_waits s.
Proof. intros c1 c2 m1 m2 t ->. destruct s. repeat split. Qed.

(** The heartbeat keeps its schedule.  [StartSend] makes the timer due three
    seconds after the time it is given.  On an engine started by
    [SocketLoop] at [T0] on a fresh client, take any schedule in which the
    sends return, however late each wait completes and whatever datagrams
    arrive in between: after it the loop is waiting, two requests were sent
    for each of its [n] heartbeats, and the timer is due at
    [T0 + 3 s * (n + 1)], the wait completing from that time on and not
    before.  The heartbeat that comes next, however late, sends exactly the
    port-info request and then the pad-data request to the peer, and leaves
    the timer due three seconds after that deadline, not after the time it
    ran. *)
Theorem heartbeats_are_sent_on_schedule
    (st : DeviceStatus) (host : string) (port id : Z)
    (T0 : time_point) (sched : list Arrival) (late : nat) (len1 len2 : Z) :
  (forall from w,
     timer_expiry (socket (snd (StartSend ticks_per_second from w))) = from + sec 3) /\
  let W0 := Client_new MAX_PACKET_SIZE st host port id in
  let before := SocketLoop' T0 (realise' T0 sched) W0 in
  let after := SocketLoop' T0 (realise' T0 (sched ++ [Tick late len1 len2])) W0 in
  let due := T0 + sec 3 * (1 + count_ticks sched) in
  fst before = Waiting /\
  timer_expiry (socket (snd before)) = due /\
  (forall now r1 r2,
     deliverable (Expired now r1 r2) (socket (snd before)) = (due <=? now)) /\
  Z.of_nat (length (wire (socket (snd before)))) = 2 * count_ticks sched /\
  fst after = Waiting /\
  wire (socket (snd after)) =
    wire (socket (snd before)) ++
    [ {| sent_data := Create_PortInfo port_info_request id;
         sent_to := (host, port);
         sent_result := SendOk len1 |};
      {| sent_data := Create_PadData pad_data_request id;
         sent_to := (host, port);
         sent_result := SendOk len2 |} ] /\
  timer_expiry (socket (snd after)) = due + sec 3.
Proof.
  split; [reflexivity |]. cbn zeta.
  destruct (SocketLoop_armed st host port id T0) as (w1 & E1 & Ha1 & Hs1 & Hk1 & Hw1).
  rewrite !E1, realise_app.
  destruct (Loop_realise_wire sched T0 w1 Ha1) as (w2 & E2 & Ha2 & Hlen).
  pose proof (E2 []) as E2nil. rewrite app_nil_r in E2nil. rewrite E2nil, E2.
  pose proof (Loop_steady MAX_PACKET_SIZE Validate decode_Version decode_PortInfo
                decode_PadData Create_PortInfo Create_PadData ticks_per_second
                _ _ _ _ (realise' T0 sched) w1 Hs1 Hk1) as (Hs2 & _).
  rewrite E2nil in Hs2.
  pose proof (armed_has_work _ _ Ha2) as Hwork.
  cbn [Loop] in Hs2. rewrite Hwork in Hs2.
  cbn [realise Loop]. rewrite Hwork. cbn [fst snd] in *.
  destruct Ha2 as (HT & Hw & Hc & Hr).
  destruct Hs2 as (_ & Hid & Hep & _).
  split; [reflexivity |]. split; [exact HT |].
  split; [intros now r1 r2; unfold deliverable; now rewrite Hw, HT |].
  split; [rewrite Hlen, Hw1; cbn; lia |].
  assert (Hd : deliverable
                 (Expired (T0 + sec 3 * count_ticks sched + sec 3 + Z.of_nat late)
                          (SendOk len1) (SendOk len2)) (socket w2) = true).
  { unfold deliverable. rewrite Hw, HT. cbn [Nat.eqb negb andb].
    apply Z.leb_le. unfold seconds. lia. }
  rewrite Hd. unfold dispatch, bind, modify_socket. rewrite HandleSend_unfold.
  cbn zeta. cbn [socket client journal take_wait client_id send_endpoint
                 fst snd Loop has_work async_wait expires_at push_wire set_send_buffer2
                 set_send_buffer1 receive_waits timer_waits timer_cancelled wire
                 timer_expiry].
  rewrite Hid, Hep.
  match goal with |- context [has_work ?s'] =>
    destruct (tick_socket (socket w2) s' _ _ _ _ _ eq_refl) as (Tw & Te & Tr)
  end.
  unfold has_work. rewrite Tr.
  destruct (receive_waits (socket w2)) as [| r] eqn:Er; [contradiction |].
  cbn [Nat.add Nat.eqb negb fst snd socket].
  rewrite Tw, Te, <- app_assoc. cbn [app].
  split; [reflexivity |]. split; [reflexivity |]. rewrite HT. unfold seconds. lia.
Qed.

End EngineSchedule.

(** * Runs of the engine on concrete input *)

Lemma HandleReceive_runs_the_matching_callback_witness :
  callback (socket toy_world) = Client_callback /\
  client (snd (toy_HandleReceive success 0 toy_world)) = client toy_world.
Proof.
  split; [reflexivity |].
  exact (proj1 (HandleReceive_runs_the_matching_callback
                  toy_Validate toy_decode_Version toy_decode_PortInfo toy_decode_PadData
                  success 0 toy_world eq_refl)).
Defined.

Lemma toy_Validate_rejects_empty (b : bytes) : toy_Validate b 0 = None.
Proof. reflexivity. Qed.

Lemma failed_receive_changes_nothing_witness :
  system_error 111 <> success /\
  (forall b, toy_Validate b 0 = None) /\
  dispatch toy_MAX_PACKET_SIZE toy_Validate
    toy_decode_Version toy_decode_PortInfo toy_decode_PadData
    toy_Create_PortInfo toy_Create_PadData toy_ticks_per_second
    (Received (system_error 111) [])
    (snd (toy_SocketLoop 0 [] toy_world))
  = (Normal tt, snd (toy_SocketLoop 0 [] toy_world)).
Proof.
  assert (H1 : system_error 111 <> success) by discriminate.
  split; [exact H1 | split; [exact toy_Validate_rejects_empty |]].
  apply (failed_receive_changes_nothing toy_MAX_PACKET_SIZE toy_Validate
           toy_decode_Version toy_decode_PortInfo toy_decode_PadData
           toy_Create_PortInfo toy_Create_PadData toy_ticks_per_second
           (system_error 111) [] (snd (toy_SocketLoop 0 [] toy_world))
           H1 toy_Validate_rejects_empty).
  discriminate.
Defined.

(** C6, at an input where it fails.  The second send of the heartbeat due
    at 3 s fails: both requests were handed to the socket, but the
    exception of [send_to] leaves the handler before [StartSend] is
    reached, so no wait is left on the timer, whose expiry stays at 3 s:
    the wait due at 6 s does not exist and no heartbeat follows. *)
Lemma failed_send_stops_the_heartbeat :
  let run :=
    toy_SocketLoop 0
      [Expired 3000 (SendOk 7) (SendFail (system_error 101));
       Expired 6000 (SendOk 7) (SendOk 12);
       Expired 9000 (SendOk 7) (SendOk 12)]
      toy_world in
  fst run = Uncaught (system_error 101) /\
  length (wire (socket (snd run))) = 2%nat /\
  timer_expiry (socket (snd run)) = 3000 /\
  timer_waits (socket (snd run)) = 0%nat /\
  deliverable (Expired 6000 (SendOk 7) (SendOk 12)) (socket (snd run)) = false.
Proof. vm_compute. repeat split. Qed.

(** C7, at an input where it fails.  The first send of a heartbeat fails:
    the port-info request is the only one handed to the socket, the
    pad-data request is never built nor sent. *)
Lemma failed_first_send_issues_one_request :
  let armed_world := snd (toy_SocketLoop 0 [] toy_world) in
  let tick := toy_HandleSend success (SendFail (system_error 101)) (SendOk 12) armed_world in
  fst tick = Raised (system_error 101) /\
  wire (socket (snd tick)) =
    [ {| sent_data := toy_Create_PortInfo port_info_request 7;
         sent_to := ("127.0.0.1"%string, 26760);
         sent_result := SendFail (system_error 101) |} ] /\
  send_buffer2 (socket (snd tick)) = [].
Proof. vm_compute. repeat split. Qed.
